(** * Session lifecycle of the pairing-code server

    A shallow embedding of the two revisions of [server.js]:
    - the event-driven revision (pairing code requested from the
      [connection.update] handler, 30 s promise deadline, credential
      delivery on [open]), embedded at top level;
    - the timer-driven revision (3 s settle timer, then one request),
      embedded in [Module Legacy].

    The Node process is single-threaded: every synchronous stretch of a
    handler runs to completion, and an [await] is the only place where
    other handlers can interleave.  A stretch of code between two awaits
    is embedded as one function on the [World]; the outside world (HTTP
    requests, Transport events, timers, awaited calls returning) is a
    [Stimulus].  Calls into the Transport library and HTTP responses are
    recorded as [Action]s.  The SIGINT handler ends the process and with it
    every run; it is not a stimulus. *)

From stdpp Require Import base gmap strings list.
From Stdlib Require Import Ascii String ZArith Lia.

Open Scope string_scope.
Open Scope Z_scope.

(** ** JavaScript values that the handlers inspect *)

(** [/\D/g]: every character that is not an ASCII digit. *)
Definition is_digit (c : ascii) : bool :=
  ((48 <=? nat_of_ascii c) && (nat_of_ascii c <=? 57))%nat.

(** [s.replace(/\D/g, "")] *)
Fixpoint replace_non_digits (s : string) : string :=
  match s with
  | EmptyString => EmptyString
  | String c rest =>
      if is_digit c then String c (replace_non_digits rest)
      else replace_non_digits rest
  end.

(** Truthiness of a string (the empty string is falsy). *)
Definition truthy (s : string) : bool :=
  match s with
  | EmptyString => false
  | String _ _ => true
  end.

(** Truthiness of a value that is a string or [undefined]. *)
Definition truthy_opt (o : option string) : bool :=
  match o with
  | Some s => truthy s
  | None => false
  end.

(** [req.body.number]: absent (or another falsy non-string), a string, or
    a truthy value without a [replace] method (a JSON number, object ...). *)
Inductive BodyNumber :=
  | NumAbsent
  | NumString (s : string)
  | NumOther.

(** [!number] *)
Definition falsy_number (b : BodyNumber) : bool :=
  match b with
  | NumAbsent => true
  | NumString s => negb (truthy s)
  | NumOther => false
  end.

(** ** The file system, as far as the server touches it *)

Inductive FsNode :=
  | Directory (entries : list string)
  | RegularFile.

(** [fs.existsSync(p)] *)
Definition existsSync (p : string) (fs : gmap string FsNode) : bool :=
  bool_decide (is_Some (fs !! p)).

(** [fs.rmSync(p, { recursive: true, force: true })] *)
Definition rmSync (p : string) (fs : gmap string FsNode) : gmap string FsNode :=
  delete p fs.

(** [fs.mkdirSync(p, { recursive: true })]: an existing directory is left
    alone. *)
Definition mkdirSync (p : string) (fs : gmap string FsNode) : gmap string FsNode :=
  match fs !! p with
  | Some _ => fs
  | None => <[p := Directory []]> fs
  end.

(** [fs.unlinkSync(p)] *)
Definition unlinkSync (p : string) (fs : gmap string FsNode) : gmap string FsNode :=
  delete p fs.

(** The guarded removal that every cleanup path uses:
    [if (fs.existsSync(dir)) fs.rmSync(dir, ...)]. *)
Definition remove_if_exists (dir : string) (fs : gmap string FsNode)
  : gmap string FsNode :=
  if existsSync dir fs then rmSync dir fs else fs.

(** ** Data model *)

(** The constants of the Transport library's [DisconnectReason] table that
    the close handler compares against. *)
Record DisconnectReasonT := {
  loggedOut : Z;
  forbidden : Z;
  connectionReplaced : Z
}.

(** What the process reads from its surroundings: [__dirname] and the
    library's [DisconnectReason]. *)
Record Env := {
  dirname : string;
  DisconnectReason : DisconnectReasonT
}.

(** [path.join(__dirname, "sessions", normalizedNumber)] *)
Definition session_path (env : Env) (normalizedNumber : string) : string :=
  dirname env ++ "/sessions/" ++ normalizedNumber.

(** [update.connection] *)
Inductive ConnState :=
  | ConnConnecting
  | ConnOpen
  | ConnClose.

(** The fields of a [connection.update] event that the handler reads;
    [statusCode] is [lastDisconnect?.error?.output?.statusCode]. *)
Record Update := {
  connection : option ConnState;
  qr : option string;
  statusCode : option Z
}.

(** The object the pairing promise is resolved with: [{ code }] or
    [{ error: error.message }]. *)
Record PairingResult := {
  code : option string;
  error : option string
}.

Inductive PromiseState :=
  | Pending
  | Fulfilled (result : PairingResult)
  | Rejected (message : string).

(** Everything that belongs to one [makeWASocket] handle: the parts of the
    [conn] object the server reads, the variables closed over by
    [setupConnectionHandlers], and the promise and timer of the
    [/api/pair] request that created it.  The [sessionDir] that the
    closures hold is [session_path] of [normalizedNumber] and is computed
    where it is used. *)
Record Session := {
  normalizedNumber : string;
  ws : option Z;                      (* conn.ws?.readyState *)
  registered : bool;                  (* conn.authState.creds.registered *)
  credsSent : bool;
  pairingCodeRequested : bool;
  suspended : option Update;          (* handler parked at await requestPairingCode *)
  deliveryTimer : bool;               (* setTimeout(..., 2000) not yet fired *)
  pairingCodePromise : PromiseState;
  timeoutTimer : bool                 (* setTimeout(..., 30000) not yet fired *)
}.

(** A value of the [activeConnections] map; [conn] is the handle of the
    shared socket object. *)
Record Connection := {
  conn : nat;
  sessionDir : string;
  timestamp : Z
}.

Record World := {
  activeConnections : gmap string Connection;
  disk : gmap string FsNode;
  sessions : gmap nat Session;
  nextConn : nat
}.

Definition initial_world : World :=
  {| activeConnections := ∅; disk := ∅; sessions := ∅; nextConn := 0 |}.

(** The JSON bodies of the responses, without their fixed texts. *)
Inductive Body :=
  | ErrorBody (message : string)              (* { error } *)
  | MessageBody (message : string)            (* { message } *)
  | PairSuccess (pairingCode : option string) (phoneNumber : string)
                                              (* { success: true, pairingCode, phoneNumber, ... } *)
  | PairSuccessBrief (pairingCode : string)   (* { success: true, pairingCode, ... } *)
  | PairFailure (details : string)            (* { error: "Failed to generate pairing code", details } *)
  | StatusNone                                (* { connected: false, ... } *)
  | StatusInfo (connected : bool) (state : string) (stamp uptime : Z)
                                              (* { connected, state, timestamp, uptime } *)
  | StatusBrief (connected : bool) (state : string)
                                              (* { connected: true, state } *)
  | DisconnectSuccess                         (* { success: true, message } *)
  | Download (file : string).                 (* res.download(zipPath, ...) *)

Record Response := {
  status : Z;
  body : Body
}.

(** Calls that leave the process. *)
Inductive Action :=
  | CallMakeWASocket (h : nat)
  | CallRequestPairingCode (h : nat) (number : string)
  | CallSendMessage (h : nat) (jid : string)
  | CallLogout (h : nat)
  | CallWsClose (h : nat)
  | SetDeliveryTimeout (h : nat)
  | Respond (r : Response)
  | Unhandled (message : string).   (* a rejection that nobody handles *)

(** Field updates. *)
Definition set_disk (d : gmap string FsNode) (w : World) : World :=
  {| activeConnections := activeConnections w; disk := d;
     sessions := sessions w; nextConn := nextConn w |}.

Definition set_activeConnections (m : gmap string Connection) (w : World) : World :=
  {| activeConnections := m; disk := disk w;
     sessions := sessions w; nextConn := nextConn w |}.

Definition set_session (h : nat) (s : Session) (w : World) : World :=
  {| activeConnections := activeConnections w; disk := disk w;
     sessions := <[h := s]> (sessions w); nextConn := nextConn w |}.

Definition with_request (u : Update) (s : Session) : Session :=
  {| normalizedNumber := normalizedNumber s; ws := ws s; registered := registered s;
     credsSent := credsSent s; pairingCodeRequested := true;
     suspended := Some u; deliveryTimer := deliveryTimer s;
     pairingCodePromise := pairingCodePromise s; timeoutTimer := timeoutTimer s |}.

Definition with_delivery (s : Session) : Session :=
  {| normalizedNumber := normalizedNumber s; ws := ws s; registered := registered s;
     credsSent := true; pairingCodeRequested := pairingCodeRequested s;
     suspended := suspended s; deliveryTimer := true;
     pairingCodePromise := pairingCodePromise s; timeoutTimer := timeoutTimer s |}.

Definition with_delivery_fired (s : Session) : Session :=
  {| normalizedNumber := normalizedNumber s; ws := ws s; registered := registered s;
     credsSent := credsSent s; pairingCodeRequested := pairingCodeRequested s;
     suspended := suspended s; deliveryTimer := false;
     pairingCodePromise := pairingCodePromise s; timeoutTimer := timeoutTimer s |}.

(** A promise settles once: later [resolve]/[reject] calls are ignored. *)
Definition settle (p : PromiseState) (current : PromiseState) : PromiseState :=
  match current with
  | Pending => p
  | _ => current
  end.

Definition is_pending (p : PromiseState) : bool :=
  match p with
  | Pending => true
  | _ => false
  end.

Definition with_resumed (p : PromiseState) (s : Session) : Session :=
  {| normalizedNumber := normalizedNumber s; ws := ws s; registered := registered s;
     credsSent := credsSent s; pairingCodeRequested := pairingCodeRequested s;
     suspended := None; deliveryTimer := deliveryTimer s;
     pairingCodePromise := settle p (pairingCodePromise s);
     timeoutTimer := timeoutTimer s |}.

Definition with_deadline (s : Session) : Session :=
  {| normalizedNumber := normalizedNumber s; ws := ws s; registered := registered s;
     credsSent := credsSent s; pairingCodeRequested := pairingCodeRequested s;
     suspended := suspended s; deliveryTimer := deliveryTimer s;
     pairingCodePromise :=
       settle (Rejected "Pairing code request timeout") (pairingCodePromise s);
     timeoutTimer := false |}.

Definition with_transport (ws' : option Z) (registered' : bool) (s : Session) : Session :=
  {| normalizedNumber := normalizedNumber s; ws := ws'; registered := registered';
     credsSent := credsSent s; pairingCodeRequested := pairingCodeRequested s;
     suspended := suspended s; deliveryTimer := deliveryTimer s;
     pairingCodePromise := pairingCodePromise s; timeoutTimer := timeoutTimer s |}.

(** The closures and promise of a handle that [/api/pair] has just made. *)
Definition new_session (n : string) (ws0 : option Z) (registered0 : bool) : Session :=
  {| normalizedNumber := n; ws := ws0; registered := registered0;
     credsSent := false; pairingCodeRequested := false; suspended := None;
     deliveryTimer := false; pairingCodePromise := Pending; timeoutTimer := true |}.

(** ** Outcomes of awaited library calls *)

(** [useMultiFileAuthState], [fetchLatestBaileysVersion] and
    [makeWASocket]: either one of them throws, or a socket comes back
    whose [ws] and [authState.creds.registered] the library has set. *)
Inductive InitOutcome :=
  | InitThrows (message : string)
  | InitOk (ws0 : option Z) (registered0 : bool).

(** [zipSessionFolder]: the output stream closes, or the archiver reports
    an error (the output file may or may not have been created by then). *)
Inductive ZipOutcome :=
  | ZipResolved
  | ZipRejected (message : string) (fileCreated : bool).

(** ** The event-driven server *)

Section Server.
Context (env : Env).

(** [statusCode === DisconnectReason.loggedOut || ... forbidden ||
    ... connectionReplaced]; an undefined status code equals none. *)
Definition is_terminal (statusCode : option Z) : bool :=
  match statusCode with
  | Some c =>
      (c =? loggedOut (DisconnectReason env))
      || (c =? forbidden (DisconnectReason env))
      || (c =? connectionReplaced (DisconnectReason env))
  | None => false
  end.

(** [connection === 'connecting' || qr] *)
Definition is_ready (u : Update) : bool :=
  match connection u with
  | Some ConnConnecting => true
  | _ => false
  end || truthy_opt (qr u).

(** The guard of the pairing block of the [connection.update] handler. *)
Definition wants_pairing_code (s : Session) (u : Update) : bool :=
  is_ready u && negb (pairingCodeRequested s) && negb (registered s).

(** [zipSessionFolder(sessionDir)] *)
Definition zipSessionFolder (sessionDir : string) (zip : ZipOutcome)
    (d : gmap string FsNode) : (string + string) * gmap string FsNode :=
  let outputPath := sessionDir ++ ".zip" in
  match zip with
  | ZipResolved => (inl outputPath, <[outputPath := RegularFile]> d)
  | ZipRejected message created =>
      (inr message, if created then <[outputPath := RegularFile]> d else d)
  end.

(** [sendCredsToUser(sock, phoneNumber, sessionDir)]: every failure is
    caught and turned into [false]. *)
Definition sendCredsToUser (sock : nat) (phoneNumber sessionDir : string)
    (zip : ZipOutcome) (send_ok : bool) (d : gmap string FsNode)
  : bool * gmap string FsNode * list Action :=
  match zipSessionFolder sessionDir zip d with
  | (inl zipPath, d1) =>
      let userJid := phoneNumber ++ "@s.whatsapp.net" in
      if send_ok
      then (true, unlinkSync zipPath d1, [CallSendMessage sock userJid])
      else (false, d1, [CallSendMessage sock userJid])
  | (inr _, d1) => (false, d1, [])
  end.

(** The [close] / [open] / [connecting] chain of the handler, which runs
    after the pairing block. *)
Definition connection_update_tail (h : nat) (u : Update) (w : World)
  : World * list Action :=
  match sessions w !! h with
  | None => (w, [])
  | Some s =>
      match connection u with
      | Some ConnClose =>
          if is_terminal (statusCode u) then
            let dir := session_path env (normalizedNumber s) in
            let w1 := set_disk (remove_if_exists dir (disk w)) w in
            (set_activeConnections
               (delete (normalizedNumber s) (activeConnections w1)) w1, [])
          else (w, [])
      | Some ConnOpen =>
          if credsSent s then (w, [])
          else (set_session h (with_delivery s) w, [SetDeliveryTimeout h])
      | Some ConnConnecting => (w, [])
      | None => (w, [])
      end
  end.

(** The [connection.update] handler up to its first suspension: either it
    latches [pairingCodeRequested], calls [requestPairingCode] and parks
    at the [await], or it runs the rest of the handler at once. *)
Definition on_connection_update (h : nat) (u : Update) (w : World)
  : World * list Action :=
  match sessions w !! h with
  | None => (w, [])
  | Some s =>
      if wants_pairing_code s u
      then (set_session h (with_request u s) w,
            [CallRequestPairingCode h (normalizedNumber s)])
      else connection_update_tail h u w
  end.

(** The [catch] block of [/api/pair] once [conn] is assigned. *)
Definition api_pair_catch (h : nat) (message : string) (w : World)
  : World * list Action :=
  match sessions w !! h with
  | None => (w, [])
  | Some s =>
      let n := normalizedNumber s in
      let failure := Respond {| status := 500; body := PairFailure message |} in
      if truthy n then
        let dir := session_path env n in
        let w1 := set_disk (remove_if_exists dir (disk w)) w in
        let closing := match ws s with Some _ => [CallWsClose h] | None => [] end in
        (set_activeConnections (delete n (activeConnections w1)) w1,
         (closing ++ [failure])%list)
      else (w, [failure])
  end.

(** [/api/pair] after [await pairingCodePromise]. *)
Definition api_pair_resume (h : nat) (w : World) : World * list Action :=
  match sessions w !! h with
  | None => (w, [])
  | Some s =>
      match pairingCodePromise s with
      | Pending => (w, [])
      | Fulfilled result =>
          match error result with
          | Some message =>
              if truthy message then api_pair_catch h message w
              else (w, [Respond {| status := 200;
                                   body := PairSuccess (code result) (normalizedNumber s) |}])
          | None =>
              (w, [Respond {| status := 200;
                              body := PairSuccess (code result) (normalizedNumber s) |}])
          end
      | Rejected message => api_pair_catch h message w
      end
  end.

(** [requestPairingCode] returns or throws: the parked handler calls the
    pairing callback, finishes its [close]/[open] chain, and then the
    continuation of [/api/pair] runs if this call settled the promise. *)
Definition on_pairing_code_settled (h : nat) (r : string + string) (w : World)
  : World * list Action :=
  match sessions w !! h with
  | None => (w, [])
  | Some s =>
      match suspended s with
      | None => (w, [])
      | Some u =>
          let result :=
            match r with
            | inl c => {| code := Some c; error := None |}
            | inr message => {| code := None; error := Some message |}
            end in
          let w1 := set_session h (with_resumed (Fulfilled result) s) w in
          let '(w2, a2) := connection_update_tail h u w1 in
          if is_pending (pairingCodePromise s)
          then let '(w3, a3) := api_pair_resume h w2 in (w3, (a2 ++ a3)%list)
          else (w2, a2)
      end
  end.

(** The 30 s timer of [pairingCodePromise] fires. *)
Definition on_pair_deadline (h : nat) (w : World) : World * list Action :=
  match sessions w !! h with
  | None => (w, [])
  | Some s =>
      if timeoutTimer s then
        let w1 := set_session h (with_deadline s) w in
        if is_pending (pairingCodePromise s) then api_pair_resume h w1
        else (w1, [])
      else (w, [])
  end.

(** The 2 s timer set by the [open] branch fires and [sendCredsToUser]
    runs; it shares nothing with the other handlers but the zip file, and
    its awaits are taken in one go. *)
Definition on_delivery_timeout (h : nat) (zip : ZipOutcome) (send_ok : bool)
    (w : World) : World * list Action :=
  match sessions w !! h with
  | None => (w, [])
  | Some s =>
      if deliveryTimer s then
        let w1 := set_session h (with_delivery_fired s) w in
        let '(_, d, acts) :=
          sendCredsToUser h (normalizedNumber s)
            (session_path env (normalizedNumber s)) zip send_ok (disk w1) in
        (set_disk d w1, acts)
      else (w, [])
  end.

(** [/api/pair] from the request to the first awaited library call;
    [Some n] is the normalized number the rest of the handler goes on with. *)
Definition api_pair_begin (number : BodyNumber) (w : World)
  : World * list Action * option string :=
  if falsy_number number then
    (w, [Respond {| status := 400; body := ErrorBody "Phone number is required" |}],
     None)
  else
    match number with
    | NumString s =>
        let n := replace_non_digits s in
        if (String.length n <? 10)%nat then
          (w, [Respond {| status := 400;
                          body := ErrorBody "Invalid phone number format. Include country code (e.g., 2348109860102)" |}],
           None)
        else
          let dir := session_path env n in
          (set_disk (mkdirSync dir (remove_if_exists dir (disk w))) w, [], Some n)
    | _ =>
        (* number.replace throws; conn is still undefined in the catch block *)
        (w, [Respond {| status := 500;
                        body := PairFailure "number.replace is not a function" |}],
         None)
    end.

(** [/api/pair] from the socket creation to [await pairingCodePromise]. *)
Definition api_pair_connect (n : string) (init : InitOutcome) (now : Z)
    (w : World) : World * list Action :=
  match init with
  | InitThrows message =>
      (w, [Respond {| status := 500; body := PairFailure message |}])
  | InitOk ws0 registered0 =>
      let h := nextConn w in
      ({| activeConnections :=
            <[n := {| conn := h; sessionDir := session_path env n;
                      timestamp := now |}]> (activeConnections w);
          disk := disk w;
          sessions := <[h := new_session n ws0 registered0]> (sessions w);
          nextConn := S h |},
       [CallMakeWASocket h])
  end.

(** [GET /api/status/:number] *)
Definition api_status (number : string) (now : Z) (w : World) : Response :=
  let n := replace_non_digits number in
  match activeConnections w !! n with
  | None => {| status := 200; body := StatusNone |}
  | Some c =>
      let isOpen :=
        match sessions w !! conn c with
        | Some s => match ws s with Some readyState => readyState =? 1 | None => false end
        | None => false
        end in
      {| status := 200;
         body := StatusInfo isOpen (if isOpen then "open" else "closed")
                   (timestamp c) (now - timestamp c) |}
  end.

(** [GET /api/download-creds/:number] *)
Definition api_download_creds (number : string) (zip : ZipOutcome)
    (download_ok : bool) (w : World) : World * list Action :=
  let n := replace_non_digits number in
  match activeConnections w !! n with
  | None => (w, [Respond {| status := 404; body := ErrorBody "Session not found" |}])
  | Some c =>
      match zipSessionFolder (sessionDir c) zip (disk w) with
      | (inl zipPath, d1) =>
          (set_disk (if download_ok then unlinkSync zipPath d1 else d1) w,
           [Respond {| status := 200; body := Download zipPath |}])
      | (inr message, d1) =>
          (set_disk d1 w,
           [Respond {| status := 500; body := ErrorBody message |}])
      end
  end.

(** [DELETE /api/disconnect/:number] up to [await connection.conn.logout()];
    [Some c] is the registry entry the rest of the handler holds on to. *)
Definition api_disconnect (number : string) (w : World)
  : World * list Action * option Connection :=
  let n := replace_non_digits number in
  match activeConnections w !! n with
  | None =>
      (w, [Respond {| status := 200; body := MessageBody "No active connection found" |}],
       None)
  | Some c => (w, [CallLogout (conn c)], Some c)
  end.

(** [DELETE /api/disconnect/:number] after the [await]: [logout] returned
    ([None]) or threw ([Some message]). *)
Definition api_disconnect_resume (n : string) (c : Connection)
    (logout : option string) (w : World) : World * list Action :=
  match logout with
  | Some message => (w, [Respond {| status := 500; body := ErrorBody message |}])
  | None =>
      let closing :=
        match sessions w !! conn c with
        | Some s => match ws s with Some _ => [CallWsClose (conn c)] | None => [] end
        | None => []
        end in
      let w1 := set_activeConnections (delete n (activeConnections w)) w in
      (set_disk (remove_if_exists (sessionDir c) (disk w1)) w1,
       (closing ++ [Respond {| status := 200; body := DisconnectSuccess |}])%list)
  end.

(** The whole of a disconnect request when no other handler runs while
    [logout] is awaited. *)
Definition api_disconnect_whole (number : string) (logout : option string)
    (w : World) : World * list Action :=
  match api_disconnect number w with
  | (w1, acts, Some c) =>
      let '(w2, acts2) :=
        api_disconnect_resume (replace_non_digits number) c logout w1 in
      (w2, (acts ++ acts2)%list)
  | (w1, acts, None) => (w1, acts)
  end.

(** [saveCreds], subscribed to [creds.update]: the Credential Store writes
    [creds.json] into the session directory when that directory exists. *)
Definition on_creds_update (h : nat) (w : World) : World * list Action :=
  match sessions w !! h with
  | None => (w, [])
  | Some s =>
      let dir := session_path env (normalizedNumber s) in
      match disk w !! dir with
      | Some (Directory entries) =>
          (set_disk (<[dir := Directory ("creds.json" :: entries)]> (disk w)) w, [])
      | _ => (w, [])
      end
  end.

(** The Transport changes the socket state behind the server's back. *)
Definition on_transport_change (h : nat) (ws' : option Z) (registered' : bool)
    (w : World) : World * list Action :=
  match sessions w !! h with
  | None => (w, [])
  | Some s => (set_session h (with_transport ws' registered' s) w, [])
  end.

(** ** The process as a transition system *)

(** What can happen to the process.  A stimulus that resumes a parked
    handler carries what the handler's closure holds on to: the normalized
    number for [/api/pair], the number and the registry entry for the
    disconnect request. *)
Inductive Stimulus :=
  | HttpPair (number : BodyNumber)
  | PairInitDone (n : string) (init : InitOutcome) (now : Z)
  | ConnectionUpdate (h : nat) (u : Update)
  | PairingCodeSettled (h : nat) (r : string + string)
  | PairDeadline (h : nat)
  | DeliveryTimeout (h : nat) (zip : ZipOutcome) (send_ok : bool)
  | CredsUpdate (h : nat)
  | TransportChange (h : nat) (ws' : option Z) (registered' : bool)
  | HttpStatus (number : string) (now : Z)
  | HttpDownloadCreds (number : string) (zip : ZipOutcome) (download_ok : bool)
  | HttpDisconnect (number : string)
  | LogoutSettled (n : string) (c : Connection) (logout : option string).

Definition step (st : Stimulus) (w : World) : World * list Action :=
  match st with
  | HttpPair number => let '(w1, acts, _) := api_pair_begin number w in (w1, acts)
  | PairInitDone n init now => api_pair_connect n init now w
  | ConnectionUpdate h u => on_connection_update h u w
  | PairingCodeSettled h r => on_pairing_code_settled h r w
  | PairDeadline h => on_pair_deadline h w
  | DeliveryTimeout h zip send_ok => on_delivery_timeout h zip send_ok w
  | CredsUpdate h => on_creds_update h w
  | TransportChange h ws' registered' => on_transport_change h ws' registered' w
  | HttpStatus number now => (w, [Respond (api_status number now w)])
  | HttpDownloadCreds number zip download_ok =>
      api_download_creds number zip download_ok w
  | HttpDisconnect number => let '(w1, acts, _) := api_disconnect number w in (w1, acts)
  | LogoutSettled n c logout => api_disconnect_resume n c logout w
  end.

(** Stimuli processed one after the other; the actions come out in the
    order in which they were performed. *)
Fixpoint run (stims : list Stimulus) (w : World) : World * list Action :=
  match stims with
  | [] => (w, [])
  | st :: rest =>
      let '(w1, a1) := step st w in
      let '(w2, a2) := run rest w1 in
      (w2, (a1 ++ a2)%list)
  end.

End Server.

(** ** The timer-driven server *)

Module Legacy.

(** One [makeWASocket] handle and the [/api/pair] request that made it. *)
Record Session := {
  normalizedNumber : string;
  ws : option Z;                       (* conn.ws.readyState *)
  settleTimer : bool;                  (* setTimeout(resolve, 3000) not yet fired *)
  requesting : bool                    (* parked at await requestPairingCode *)
}.

Record World := {
  activeConnections : gmap string nat;             (* number -> { conn, saveCreds } *)
  pairingCodes : gmap string (string * Z);         (* number -> { code, timestamp } *)
  disk : gmap string FsNode;
  sessions : gmap nat Session;
  nextConn : nat
}.

Definition initial_world : World :=
  {| activeConnections := ∅; pairingCodes := ∅; disk := ∅; sessions := ∅;
     nextConn := 0 |}.

Definition set_disk (d : gmap string FsNode) (w : World) : World :=
  {| activeConnections := activeConnections w; pairingCodes := pairingCodes w;
     disk := d; sessions := sessions w; nextConn := nextConn w |}.

Definition set_activeConnections (m : gmap string nat) (w : World) : World :=
  {| activeConnections := m; pairingCodes := pairingCodes w;
     disk := disk w; sessions := sessions w; nextConn := nextConn w |}.

Definition set_pairingCodes (m : gmap string (string * Z)) (w : World) : World :=
  {| activeConnections := activeConnections w; pairingCodes := m;
     disk := disk w; sessions := sessions w; nextConn := nextConn w |}.

Definition set_session (h : nat) (s : Session) (w : World) : World :=
  {| activeConnections := activeConnections w; pairingCodes := pairingCodes w;
     disk := disk w; sessions := <[h := s]> (sessions w); nextConn := nextConn w |}.

(** What becomes of the rejected promise of an async route handler is up
    to the host.  Express 4 does not look at the promise, and Node (from
    version 15 on) ends the process on the unhandled rejection; the router
    of Express 5 hands the error to its error handler, which answers 500. *)
Inductive Host :=
  | HostExits
  | HostAnswers.

(** The actions report an unhandled rejection, on which the process ends. *)
Fixpoint ends_process (acts : list Action) : bool :=
  match acts with
  | [] => false
  | Unhandled _ :: _ => true
  | _ :: rest => ends_process rest
  end.

Section Server.
Context (env : Env).

(** The [connection.update] handler: only a terminal [close] does anything. *)
Definition on_connection_update (h : nat) (u : Update) (w : World)
  : World * list Action :=
  match sessions w !! h with
  | None => (w, [])
  | Some s =>
      match connection u with
      | Some ConnClose =>
          if is_terminal env (statusCode u) then
            let sessionDir := session_path env (normalizedNumber s) in
            let w1 := set_disk (remove_if_exists sessionDir (disk w)) w in
            (set_activeConnections
               (delete (normalizedNumber s) (activeConnections w1)) w1, [])
          else (w, [])
      | _ => (w, [])
      end
  end.

(** [/api/pair] up to the first awaited library call. *)
Definition api_pair_begin (number : BodyNumber) (w : World)
  : World * list Action * option string :=
  if falsy_number number then
    (w, [Respond {| status := 400; body := ErrorBody "Phone number is required" |}],
     None)
  else
    match number with
    | NumString s =>
        let n := replace_non_digits s in
        if (String.length n <? 10)%nat then
          (w, [Respond {| status := 400;
                          body := ErrorBody "Invalid phone number format. Include country code (e.g., 2348109860102)" |}],
           None)
        else
          let sessionDir := session_path env n in
          (set_disk (mkdirSync sessionDir (remove_if_exists sessionDir (disk w))) w,
           [], Some n)
    | _ =>
        (w, [Respond {| status := 500;
                        body := PairFailure "number.replace is not a function" |}],
         None)
    end.

(** [/api/pair] from the socket creation to the 3 s settle wait. *)
Definition api_pair_connect (n : string) (init : InitOutcome) (w : World)
  : World * list Action :=
  match init with
  | InitThrows message =>
      (w, [Respond {| status := 500; body := PairFailure message |}])
  | InitOk ws0 _ =>
      let h := nextConn w in
      ({| activeConnections := <[n := h]> (activeConnections w);
          pairingCodes := pairingCodes w;
          disk := disk w;
          sessions := <[h := {| normalizedNumber := n; ws := ws0;
                                settleTimer := true; requesting := false |}]>
                        (sessions w);
          nextConn := S h |},
       [CallMakeWASocket h])
  end.

(** The settle timer fires: [requestPairingCode(conn, normalizedNumber)]. *)
Definition on_settle_timer (h : nat) (w : World) : World * list Action :=
  match sessions w !! h with
  | None => (w, [])
  | Some s =>
      if settleTimer s then
        (set_session h {| normalizedNumber := normalizedNumber s; ws := ws s;
                          settleTimer := false; requesting := true |} w,
         [CallRequestPairingCode h (normalizedNumber s)])
      else (w, [])
  end.

(** [requestPairingCode] returns a code ([inl]) or throws ([inr], with
    the message thrown and what the host does next).  The [catch] block
    reads [number], which is declared inside the [try] block: with [conn]
    assigned the test [conn && number] raises a ReferenceError, so neither
    the cleanup nor the handler's error response is reached and the
    handler's promise is rejected with the ReferenceError.  Either nobody
    handles the rejection and the process ends there, or the host's router
    answers 500 with it. *)
Definition on_pairing_code_settled (h : nat) (r : string + string * Host) (now : Z)
    (w : World) : World * list Action :=
  match sessions w !! h with
  | None => (w, [])
  | Some s =>
      if requesting s then
        let w1 := set_session h {| normalizedNumber := normalizedNumber s; ws := ws s;
                                   settleTimer := settleTimer s;
                                   requesting := false |} w in
        match r with
        | inl pairingCode =>
            (set_pairingCodes
               (<[normalizedNumber s := (pairingCode, now)]> (pairingCodes w1)) w1,
             [Respond {| status := 200; body := PairSuccessBrief pairingCode |}])
        | inr (_, HostExits) => (w1, [Unhandled "number is not defined"])
        | inr (_, HostAnswers) =>
            (w1, [Respond {| status := 500; body := ErrorBody "number is not defined" |}])
        end
      else (w, [])
  end.

(** [GET /api/status/:number]; reading [readyState] of an undefined [ws]
    throws inside the synchronous handler. *)
Definition api_status (number : string) (w : World) : Response :=
  let n := replace_non_digits number in
  match activeConnections w !! n with
  | None => {| status := 200; body := StatusNone |}
  | Some h =>
      match sessions w !! h ≫= ws with
      | Some readyState =>
          {| status := 200;
             body := StatusBrief true (if readyState =? 1 then "open" else "closed") |}
      | None =>
          {| status := 500;
             body := ErrorBody "Cannot read properties of undefined (reading 'readyState')" |}
      end
  end.

(** [DELETE /api/disconnect/:number] up to [await connection.conn.logout()]. *)
Definition api_disconnect (number : string) (w : World)
  : World * list Action * option nat :=
  let n := replace_non_digits number in
  match activeConnections w !! n with
  | None =>
      (w, [Respond {| status := 200; body := MessageBody "No active connection found" |}],
       None)
  | Some h => (w, [CallLogout h], Some h)
  end.

(** [DELETE /api/disconnect/:number] after the [await]. *)
Definition api_disconnect_resume (n : string) (h : nat) (logout : option string)
    (w : World) : World * list Action :=
  match logout with
  | Some message => (w, [Respond {| status := 500; body := ErrorBody message |}])
  | None =>
      match sessions w !! h ≫= ws with
      | None =>
          (w, [Respond {| status := 500;
                          body := ErrorBody "Cannot read properties of undefined (reading 'close')" |}])
      | Some _ =>
          let w1 := set_activeConnections (delete n (activeConnections w)) w in
          let sessionDir := session_path env n in
          (set_disk (remove_if_exists sessionDir (disk w1)) w1,
           [CallWsClose h;
            Respond {| status := 200; body := MessageBody "Disconnected successfully" |}])
      end
  end.

Definition api_disconnect_whole (number : string) (logout : option string)
    (w : World) : World * list Action :=
  match api_disconnect number w with
  | (w1, acts, Some h) =>
      let '(w2, acts2) :=
        api_disconnect_resume (replace_non_digits number) h logout w1 in
      (w2, (acts ++ acts2)%list)
  | (w1, acts, None) => (w1, acts)
  end.

Definition on_creds_update (h : nat) (w : World) : World * list Action :=
  match sessions w !! h with
  | None => (w, [])
  | Some s =>
      let dir := session_path env (normalizedNumber s) in
      match disk w !! dir with
      | Some (Directory entries) =>
          (set_disk (<[dir := Directory ("creds.json" :: entries)]> (disk w)) w, [])
      | _ => (w, [])
      end
  end.

Definition on_transport_change (h : nat) (ws' : option Z) (w : World)
  : World * list Action :=
  match sessions w !! h with
  | None => (w, [])
  | Some s =>
      (set_session h {| normalizedNumber := normalizedNumber s; ws := ws';
                        settleTimer := settleTimer s; requesting := requesting s |} w,
       [])
  end.

Inductive Stimulus :=
  | HttpPair (number : BodyNumber)
  | PairInitDone (n : string) (init : InitOutcome)
  | ConnectionUpdate (h : nat) (u : Update)
  | SettleTimer (h : nat)
  | PairingCodeSettled (h : nat) (r : string + string * Host) (now : Z)
  | CredsUpdate (h : nat)
  | TransportChange (h : nat) (ws' : option Z)
  | HttpStatus (number : string)
  | HttpDisconnect (number : string)
  | LogoutSettled (n : string) (h : nat) (logout : option string).

Definition step (st : Stimulus) (w : World) : World * list Action :=
  match st with
  | HttpPair number => let '(w1, acts, _) := api_pair_begin number w in (w1, acts)
  | PairInitDone n init => api_pair_connect n init w
  | ConnectionUpdate h u => on_connection_update h u w
  | SettleTimer h => on_settle_timer h w
  | PairingCodeSettled h r now => on_pairing_code_settled h r now w
  | CredsUpdate h => on_creds_update h w
  | TransportChange h ws' => on_transport_change h ws' w
  | HttpStatus number => (w, [Respond (api_status number w)])
  | HttpDisconnect number => let '(w1, acts, _) := api_disconnect number w in (w1, acts)
  | LogoutSettled n h logout => api_disconnect_resume n h logout w
  end.

(** Stimuli handled one after the other.  [run] lets the handlers go on
    after a step that ends the process, so it covers every run of the
    process and more; [run_process] is the process itself. *)
Fixpoint run (stims : list Stimulus) (w : World) : World * list Action :=
  match stims with
  | [] => (w, [])
  | st :: rest =>
      let '(w1, a1) := step st w in
      let '(w2, a2) := run rest w1 in
      (w2, (a1 ++ a2)%list)
  end.

(** The runs of the process: nothing is handled after the step on which
    the process ends. *)
Fixpoint run_process (stims : list Stimulus) (w : World) : World * list Action :=
  match stims with
  | [] => (w, [])
  | st :: rest =>
      let '(w1, a1) := step st w in
      if ends_process a1 then (w1, a1)
      else
        let '(w2, a2) := run_process rest w1 in
        (w2, (a1 ++ a2)%list)
  end.

End Server.

End Legacy.

(** ** Vocabulary of the properties *)

(** How many actions of a list satisfy a test. *)
Fixpoint tally (p : Action → bool) (acts : list Action) : nat :=
  match acts with
  | [] => 0%nat
  | a :: rest => ((if p a then 1 else 0) + tally p rest)%nat
  end.

Definition is_request (h : nat) (a : Action) : bool :=
  match a with
  | CallRequestPairingCode h' _ => bool_decide (h' = h)
  | _ => false
  end.

Definition is_delivery_timer (h : nat) (a : Action) : bool :=
  match a with
  | SetDeliveryTimeout h' => bool_decide (h' = h)
  | _ => false
  end.

Definition is_send (h : nat) (a : Action) : bool :=
  match a with
  | CallSendMessage h' _ => bool_decide (h' = h)
  | _ => false
  end.

(** Calls that close a Transport: [logout] or [ws.close]. *)
Definition is_teardown (h : nat) (a : Action) : bool :=
  match a with
  | CallLogout h' | CallWsClose h' => bool_decide (h' = h)
  | _ => false
  end.

Definition b2n (b : bool) : nat := if b then 1%nat else 0%nat.

(** A [close] event that carries one of the three terminal status codes. *)
Definition is_terminal_close (env : Env) (u : Update) : bool :=
  match connection u with
  | Some ConnClose => is_terminal env (statusCode u)
  | _ => false
  end.

(** The stimuli that end the session of identity [n] in world [w]: a
    terminal close handled for one of its sockets, a registration of [n]
    that fails (deadline reached, or the Transport refusing the pairing
    code), and a disconnect of [n] whose [logout] went through. *)
Definition ends_session (env : Env) (n : string) (st : Stimulus) (w : World) : bool :=
  match st with
  | ConnectionUpdate h u =>
      match sessions w !! h with
      | Some s => bool_decide (normalizedNumber s = n) && is_terminal_close env u
      | None => false
      end
  | PairingCodeSettled h r =>
      match sessions w !! h with
      | Some s =>
          bool_decide (normalizedNumber s = n)
          && (match suspended s with
              | Some u => is_terminal_close env u
              | None => false
              end
              || match r with
                 | inr _ => is_pending (pairingCodePromise s)
                 | inl _ => false
                 end)
      | None => false
      end
  | PairDeadline h =>
      match sessions w !! h with
      | Some s =>
          bool_decide (normalizedNumber s = n)
          && timeoutTimer s && is_pending (pairingCodePromise s)
      | None => false
      end
  | LogoutSettled n' _ None => bool_decide (n' = n)
  | _ => false
  end.

(** No stimulus of the sequence ends the session of [n]. *)
Fixpoint undisturbed (env : Env) (n : string) (stims : list Stimulus) (w : World)
  : bool :=
  match stims with
  | [] => true
  | st :: rest =>
      negb (ends_session env n st w)
      && undisturbed env n rest (fst (step env st w))
  end.

(** The latches of a closure as numbers; a handle that has no closure yet
    counts as all clear. *)
Definition requested (o : option Session) : nat :=
  match o with
  | Some s => b2n (pairingCodeRequested s)
  | None => 0%nat
  end.

Definition delivery_latched (o : option Session) : nat :=
  match o with
  | Some s => b2n (credsSent s)
  | None => 0%nat
  end.

Definition delivery_pending (o : option Session) : nat :=
  match o with
  | Some s => b2n (deliveryTimer s)
  | None => 0%nat
  end.

(** What the counters of a handle must be, given the latches of its
    closure. *)
Definition counters_agree (h : nat) (o : option Session) (acts : list Action) : Prop :=
  tally (is_request h) acts = requested o
  ∧ tally (is_delivery_timer h) acts = delivery_latched o
  ∧ (tally (is_send h) acts + delivery_pending o ≤ delivery_latched o)%nat.

(** What one stretch of code may do to a handle: every request and every
    delivery timer is paid for by a latch going from clear to set, no latch
    is ever cleared, and every send uses up a pending delivery timer. *)
Definition accounted (h : nat) (acts : list Action) (o o' : option Session) : Prop :=
  (tally (is_request h) acts + requested o = requested o')%nat
  ∧ (tally (is_delivery_timer h) acts + delivery_latched o = delivery_latched o')%nat
  ∧ (tally (is_send h) acts + delivery_pending o'
     ≤ delivery_pending o + tally (is_delivery_timer h) acts)%nat.

(** Handles are handed out in increasing order, and the counters of every
    handle agree with its latches. *)
Definition handles_fresh (w : World) : Prop :=
  ∀ h, (nextConn w ≤ h)%nat → sessions w !! h = None.

Definition consistent (w : World) (acts : list Action) : Prop :=
  handles_fresh w ∧ ∀ h, counters_agree h (sessions w !! h) acts.

(** A stretch of code that makes no socket: the handle counter stays and
    no new handle comes into use. *)
Definition same_handles (w w' : World) : Prop :=
  nextConn w' = nextConn w
  ∧ ∀ h, sessions w !! h = None → sessions w' !! h = None.

(** The timer-driven revision: whether the settle timer of a handle has
    fired, as a number. *)
Definition settle_fired (o : option Legacy.Session) : nat :=
  match o with
  | Some s => b2n (negb (Legacy.settleTimer s))
  | None => 0%nat
  end.

(** There, every request is paid for by a settle timer firing. *)
Definition legacy_accounted (h : nat) (acts : list Action)
    (o o' : option Legacy.Session) : Prop :=
  (tally (is_request h) acts + settle_fired o = settle_fired o')%nat.

Definition legacy_fresh (w : Legacy.World) : Prop :=
  ∀ h, (Legacy.nextConn w ≤ h)%nat → Legacy.sessions w !! h = None.

(** Every character is an ASCII digit. *)
Fixpoint all_digits (s : string) : bool :=
  match s with
  | EmptyString => true
  | String c rest => is_digit c && all_digits rest
  end.

Definition is_response (a : Action) : bool :=
  match a with
  | Respond _ => true
  | _ => false
  end.

(** A stretch of code keeps the number of a socket that exists. *)
Definition keeps_number (o o' : option Session) : Prop :=
  ∀ s, o = Some s → ∃ s', o' = Some s' ∧ normalizedNumber s' = normalizedNumber s.

(** A stretch of code adds no registry entry and alters none. *)
Definition registry_shrinks (w w' : World) : Prop :=
  ∀ n c, activeConnections w' !! n = Some c → activeConnections w !! n = Some c.

(** Every registry entry belongs to a socket that exists and that was made
    for the very number the entry is filed under, and records the session
    directory of that number. *)
Definition registry_well_formed (env : Env) (w : World) : Prop :=
  ∀ n c, activeConnections w !! n = Some c →
         sessionDir c = session_path env n
         ∧ ∃ s, sessions w !! conn c = Some s ∧ normalizedNumber s = n.

(** The number a Transport call is made with, when the call carries one:
    the argument of [requestPairingCode], the JID of [sendMessage]. *)
Definition call_uses_number (h : nat) (n : string) (a : Action) : Prop :=
  match a with
  | CallRequestPairingCode h' number => h' = h → number = n
  | CallSendMessage h' jid => h' = h → jid = n ++ "@s.whatsapp.net"
  | _ => True
  end.

(** The states that the specification lists for a live session, in the
    spelling of the status endpoint. *)
Definition spec_states : list string := ["connecting"; "paired"; "open"].

(** ** Sample data *)

Definition baileys : DisconnectReasonT :=
  {| loggedOut := 401; forbidden := 403; connectionReplaced := 440 |}.

Definition env0 : Env := {| dirname := "/app"; DisconnectReason := baileys |}.

Definition alice : string := "2348109860102".

Definition ev (c : option ConnState) (q : option string) (sc : option Z) : Update :=
  {| connection := c; qr := q; statusCode := sc |}.

(** A registration of [alice] that has received its pairing code. *)
Definition paired_run : list Stimulus :=
  [ HttpPair (NumString "+234 810 986 0102");
    PairInitDone alice (InitOk (Some 0) false) 1000;
    ConnectionUpdate 0 (ev (Some ConnConnecting) None None);
    PairingCodeSettled 0 (inl "ABC-123") ].

Definition paired_world : World := fst (run env0 paired_run initial_world).

(** The same session after the device has linked and the socket is open. *)
Definition open_run : list Stimulus :=
  paired_run ++
  [ TransportChange 0 (Some 1) true;
    CredsUpdate 0;
    ConnectionUpdate 0 (ev (Some ConnOpen) None None) ].

Definition open_world : World := fst (run env0 open_run initial_world).

(** A registration that is still waiting for its pairing code. *)
Definition waiting_run : list Stimulus :=
  [ HttpPair (NumString alice);
    PairInitDone alice (InitOk (Some 0) false) 1000 ].

Definition waiting_world : World := fst (run env0 waiting_run initial_world).

(** A session whose credentials the Transport reports as registered by
    the time the readiness events arrive: a [connecting] event and a QR. *)
Definition registered_run : list Stimulus :=
  [ HttpPair (NumString alice);
    PairInitDone alice (InitOk (Some 0) false) 1000;
    TransportChange 0 (Some 0) true;
    ConnectionUpdate 0 (ev (Some ConnConnecting) None None);
    ConnectionUpdate 0 (ev None (Some "2@qr") None) ].

(** A registration whose handler has asked for the pairing code and is
    waiting for the Transport's answer. *)
Definition requesting_run : list Stimulus :=
  waiting_run ++ [ ConnectionUpdate 0 (ev (Some ConnConnecting) None None) ].

Definition requesting_world : World := fst (run env0 requesting_run initial_world).

(** [alice] registers again while her first session is open. *)
Definition reregister_run : list Stimulus :=
  open_run ++
  [ HttpPair (NumString alice);
    PairInitDone alice (InitOk (Some 0) false) 9000;
    ConnectionUpdate 1 (ev (Some ConnConnecting) None None);
    PairingCodeSettled 1 (inl "XYZ-789") ].

Definition legacy_paired_run : list Legacy.Stimulus :=
  [ Legacy.HttpPair (NumString alice);
    Legacy.PairInitDone alice (InitOk (Some 0) false);
    Legacy.SettleTimer 0;
    Legacy.PairingCodeSettled 0 (inl "ABC-123") 4000 ].

Definition legacy_paired_world : Legacy.World :=
  fst (Legacy.run env0 legacy_paired_run Legacy.initial_world).

(** ** Proof automation *)

(** Case split on whether the handle under study is the one the handler
    has just written. *)
Ltac settle_handle h0 h :=
  destruct (decide (h0 = h)) as [->|?];
  [rewrite ?lookup_insert_eq | rewrite ?lookup_insert_ne by congruence].

(** Refute that an action of one kind is in an explicit list of actions
    of other kinds. *)
Ltac not_among H :=
  cbn in H; repeat (destruct H as [H|H]; [discriminate H|]); destruct H.

(** Unfold the counters and let arithmetic finish. *)
Ltac count_up :=
  unfold accounted, requested, delivery_latched, delivery_pending, b2n;
  cbn;
  repeat case_bool_decide; repeat case_match; simplify_eq; cbn in *; try lia; try congruence.

(** ** Basic facts *)

Lemma tally_app p (a b : list Action) :
  tally p (a ++ b) = (tally p a + tally p b)%nat.
Proof.
  induction a as [|x a IH]; simpl; [reflexivity|]. rewrite IH. lia.
Qed.

Lemma remove_if_exists_delete dir (d : gmap string FsNode) :
  remove_if_exists dir d = delete dir d.
Proof.
  unfold remove_if_exists, existsSync, rmSync.
  case_bool_decide as H; [reflexivity|].
  symmetry. apply delete_id. destruct (d !! dir) eqn:E; [|reflexivity].
  exfalso. apply H. eauto.
Qed.

Lemma remove_if_exists_lookup dir (d : gmap string FsNode) :
  remove_if_exists dir d !! dir = None.
Proof. rewrite remove_if_exists_delete. apply lookup_delete_eq. Qed.

Lemma mkdir_after_remove dir (d : gmap string FsNode) :
  mkdirSync dir (remove_if_exists dir d) = <[dir := Directory []]> d.
Proof.
  unfold mkdirSync. rewrite remove_if_exists_lookup.
  rewrite remove_if_exists_delete. apply insert_delete_eq.
Qed.

(** ** Validation of the identity *)

(** C5. A registration request whose identity has fewer than 10 digits
    after normalization is answered with a 400 error and nothing else
    happens: the world (registry, disk, sockets) is returned unchanged, the
    only action is the response (no socket is made), and the handler does
    not go on.  Both revisions behave the same. *)
Theorem C5_short_identity_rejected env (number : string) (w : World) (lw : Legacy.World) :
  (String.length (replace_non_digits number) < 10)%nat →
  let rejection :=
    Respond {| status := 400;
               body := ErrorBody (if truthy number
                                  then "Invalid phone number format. Include country code (e.g., 2348109860102)"
                                  else "Phone number is required") |} in
  api_pair_begin env (NumString number) w = (w, [rejection], None)
  ∧ step env (HttpPair (NumString number)) w = (w, [rejection])
  ∧ Legacy.api_pair_begin env (NumString number) lw = (lw, [rejection], None)
  ∧ Legacy.step env (Legacy.HttpPair (NumString number)) lw = (lw, [rejection]).
Proof.
  intros Hshort rejection. subst rejection.
  apply Nat.ltb_lt in Hshort.
  unfold step, Legacy.step, api_pair_begin, Legacy.api_pair_begin.
  destruct number as [|c rest]; simpl falsy_number; cbv iota.
  - repeat split; reflexivity.
  - rewrite Hshort. repeat split; reflexivity.
Qed.

Lemma C5_short_identity_rejected_witness :
  (String.length (replace_non_digits "123") < 10)%nat
  ∧ api_pair_begin env0 (NumString "123") paired_world
    = (paired_world,
       [Respond {| status := 400;
                   body := ErrorBody "Invalid phone number format. Include country code (e.g., 2348109860102)" |}],
       None).
Proof.
  split; [simpl; lia|].
  apply (C5_short_identity_rejected env0 "123" paired_world Legacy.initial_world).
  simpl; lia.
Defined.

(** ** Disconnect *)

(** C9. A disconnect request for an identity that has no entry in the
    registry is answered with "No active connection found"; the world is
    returned unchanged, no call to any Transport is made, and the handler
    does not go on.  Both revisions behave the same. *)
Theorem C9_disconnect_without_session env (number : string) (w : World) (lw : Legacy.World) :
  activeConnections w !! replace_non_digits number = None →
  Legacy.activeConnections lw !! replace_non_digits number = None →
  let reply :=
    Respond {| status := 200; body := MessageBody "No active connection found" |} in
  api_disconnect number w = (w, [reply], None)
  ∧ (∀ logout, api_disconnect_whole number logout w = (w, [reply]))
  ∧ step env (HttpDisconnect number) w = (w, [reply])
  ∧ Legacy.api_disconnect number lw = (lw, [reply], None)
  ∧ (∀ logout, Legacy.api_disconnect_whole env number logout lw = (lw, [reply]))
  ∧ Legacy.step env (Legacy.HttpDisconnect number) lw = (lw, [reply]).
Proof.
  intros Hw Hlw reply. subst reply.
  unfold step, Legacy.step, api_disconnect_whole, Legacy.api_disconnect_whole,
    api_disconnect, Legacy.api_disconnect.
  rewrite Hw, Hlw. repeat split; reflexivity.
Qed.

Lemma C9_disconnect_without_session_witness :
  activeConnections paired_world !! replace_non_digits "+1 (555) 010-9999" = None
  ∧ api_disconnect "+1 (555) 010-9999" paired_world
    = (paired_world,
       [Respond {| status := 200; body := MessageBody "No active connection found" |}],
       None).
Proof.
  split; [vm_compute; reflexivity|].
  apply (C9_disconnect_without_session env0 "+1 (555) 010-9999"
           paired_world legacy_paired_world);
    vm_compute; reflexivity.
Defined.

(** ** The [close] branch of the connection handler *)

Lemma tail_close_terminal env h s u w :
  sessions w !! h = Some s →
  connection u = Some ConnClose →
  is_terminal env (statusCode u) = true →
  connection_update_tail env h u w
  = ({| activeConnections := delete (normalizedNumber s) (activeConnections w);
        disk := delete (session_path env (normalizedNumber s)) (disk w);
        sessions := sessions w; nextConn := nextConn w |}, []).
Proof.
  intros Hs Hc Ht. unfold connection_update_tail.
  rewrite Hs, Hc, Ht, remove_if_exists_delete. reflexivity.
Qed.

Lemma tail_close_other env h u w :
  connection u = Some ConnClose →
  is_terminal env (statusCode u) = false →
  connection_update_tail env h u w = (w, []).
Proof.
  intros Hc Ht. unfold connection_update_tail.
  destruct (sessions w !! h); [|reflexivity]. rewrite Hc, Ht. reflexivity.
Qed.

Lemma catch_clears env h s message w :
  sessions w !! h = Some s →
  normalizedNumber s ≠ "" →
  api_pair_catch env h message w
  = ({| activeConnections := delete (normalizedNumber s) (activeConnections w);
        disk := delete (session_path env (normalizedNumber s)) (disk w);
        sessions := sessions w; nextConn := nextConn w |},
     (match ws s with Some _ => [CallWsClose h] | None => [] end
      ++ [Respond {| status := 500; body := PairFailure message |}])%list).
Proof.
  intros Hs Hn. unfold api_pair_catch. rewrite Hs.
  destruct (normalizedNumber s) as [|c rest] eqn:E; [congruence|].
  simpl truthy. cbv iota. rewrite remove_if_exists_delete. reflexivity.
Qed.

(** Whatever the continuation of [/api/pair] does, it never puts an entry
    back into the registry or a directory back on the disk. *)
Lemma resume_only_removes env h w (k : string) (p : string) :
  activeConnections w !! k = None →
  disk w !! p = None →
  activeConnections (fst (api_pair_resume env h w)) !! k = None
  ∧ disk (fst (api_pair_resume env h w)) !! p = None.
Proof.
  intros Hk Hp.
  assert (Hcatch : ∀ m,
    activeConnections (fst (api_pair_catch env h m w)) !! k = None
    ∧ disk (fst (api_pair_catch env h m w)) !! p = None).
  { intros m. unfold api_pair_catch.
    destruct (sessions w !! h) as [s|]; [|by split].
    destruct (truthy (normalizedNumber s)); [|by split].
    simpl. rewrite remove_if_exists_delete. split.
    - rewrite lookup_delete. case_decide; auto.
    - rewrite lookup_delete. case_decide; auto. }
  unfold api_pair_resume.
  destruct (sessions w !! h) as [s|]; [|by split].
  destruct (pairingCodePromise s) as [|r|m]; [by split| |apply Hcatch].
  destruct (error r) as [m|]; [|by split].
  destruct (truthy m); [apply Hcatch|by split].
Qed.

(** C6. For a session that receives a [close] event: when the status code
    is none of logged-out, forbidden and connection-replaced, the registry
    and the disk are left exactly as they were; when it is one of the
    three, the handler removes the session directory and the registry
    entry of the identity -- at once, or, if this very event also made the
    handler request a pairing code first, as soon as that request has
    settled.  The timer-driven revision cleans up under the same test. *)
Theorem C6_close_cleans_up_iff_terminal env (w : World) (lw : Legacy.World)
    (h : nat) (s : Session) (ls : Legacy.Session) (u : Update) :
  sessions w !! h = Some s →
  Legacy.sessions lw !! h = Some ls →
  connection u = Some ConnClose →
  let n := normalizedNumber s in
  let ln := Legacy.normalizedNumber ls in
  let w' := fst (on_connection_update env h u w) in
  let lw' := fst (Legacy.on_connection_update env h u lw) in
  (is_terminal env (statusCode u) = false →
     activeConnections w' = activeConnections w ∧ disk w' = disk w
     ∧ lw' = lw)
  ∧ (is_terminal env (statusCode u) = true →
     (wants_pairing_code s u = false →
        activeConnections w' = delete n (activeConnections w)
        ∧ disk w' = delete (session_path env n) (disk w))
     ∧ (wants_pairing_code s u = true →
        ∀ r, let w'' := fst (on_pairing_code_settled env h r w') in
             activeConnections w'' !! n = None
             ∧ disk w'' !! session_path env n = None)
     ∧ Legacy.activeConnections lw' = delete ln (Legacy.activeConnections lw)
     ∧ Legacy.disk lw' = delete (session_path env ln) (Legacy.disk lw)).
Proof.
  intros Hs Hls Hc n ln w' lw'. subst n ln w' lw'.
  unfold on_connection_update, Legacy.on_connection_update.
  rewrite Hs, Hls, Hc. split; intros Ht.
  - rewrite Ht. split_and!; [| |reflexivity];
      (destruct (wants_pairing_code s u);
       [reflexivity | by rewrite tail_close_other]).
  - rewrite Ht. split_and!.
    + intros Hw. rewrite Hw, (tail_close_terminal env h s) by done. by split.
    + intros Hw r. rewrite Hw. cbn [fst].
      unfold on_pairing_code_settled. cbn [sessions set_session].
      rewrite lookup_insert_eq. cbn [suspended with_request].
      set (w1 := set_session h _ _).
      rewrite (tail_close_terminal env h
                 (with_resumed (Fulfilled
                    match r with
                    | inl c => {| code := Some c; error := None |}
                    | inr message => {| code := None; error := Some message |}
                    end) (with_request u s)) u w1);
        [|subst w1; cbn [sessions set_session]; by rewrite lookup_insert_eq|done|done].
      cbn [normalizedNumber pairingCodePromise with_resumed with_request].
      destruct (is_pending (pairingCodePromise s)).
      * match goal with |- context [api_pair_resume env h ?x] =>
          pose proof (resume_only_removes env h x (normalizedNumber s)
                        (session_path env (normalizedNumber s))) as Hr end.
        cbn [activeConnections disk] in Hr.
        rewrite !lookup_delete_eq in Hr. specialize (Hr eq_refl eq_refl).
        destruct (api_pair_resume env h _) as [w3 a3]. exact Hr.
      * cbn. by rewrite !lookup_delete_eq.
    + cbn. reflexivity.
    + cbn. by rewrite remove_if_exists_delete.
Qed.

Lemma C6_close_cleans_up_iff_terminal_witness :
  ∃ s ls,
    sessions open_world !! 0%nat = Some s
    ∧ Legacy.sessions legacy_paired_world !! 0%nat = Some ls
    ∧ connection (ev (Some ConnClose) None (Some 401)) = Some ConnClose
    ∧ activeConnections
        (fst (on_connection_update env0 0 (ev (Some ConnClose) None (Some 401)) open_world))
      = delete (normalizedNumber s) (activeConnections open_world)
    ∧ disk
        (fst (on_connection_update env0 0 (ev (Some ConnClose) None (Some 401)) open_world))
      = delete (session_path env0 (normalizedNumber s)) (disk open_world).
Proof.
  eexists. eexists.
  split; [vm_compute; reflexivity|].
  split; [vm_compute; reflexivity|].
  split; [reflexivity|].
  refine (proj1 (proj2 (C6_close_cleans_up_iff_terminal env0 open_world
            legacy_paired_world 0 _ _ (ev (Some ConnClose) None (Some 401))
            _ _ _) _) _);
    vm_compute; reflexivity.
Defined.


(** ** Accounting of requests and deliveries *)

Lemma accounted_refl h o : accounted h [] o o.
Proof. unfold accounted; simpl; lia. Qed.

Lemma accounted_trans h a1 a2 o1 o2 o3 :
  accounted h a1 o1 o2 → accounted h a2 o2 o3 → accounted h (a1 ++ a2) o1 o3.
Proof. unfold accounted; rewrite !tally_app; lia. Qed.

Lemma tail_accounted env h u w h0 :
  accounted h0 (snd (connection_update_tail env h u w))
    (sessions w !! h0) (sessions (fst (connection_update_tail env h u w)) !! h0).
Proof.
  unfold connection_update_tail.
  destruct (sessions w !! h) as [s|] eqn:Hs; [|apply accounted_refl].
  destruct (connection u) as [[| |]|]; try apply accounted_refl.
  - destruct (credsSent s) eqn:Hc; [apply accounted_refl|].
    cbn [fst snd sessions set_session].
    settle_handle h0 h.
    + rewrite Hs. count_up.
    + count_up.
  - destruct (is_terminal env (statusCode u)); apply accounted_refl.
Qed.

Lemma catch_accounted env h m w h0 :
  accounted h0 (snd (api_pair_catch env h m w))
    (sessions w !! h0) (sessions (fst (api_pair_catch env h m w)) !! h0).
Proof.
  unfold api_pair_catch.
  destruct (sessions w !! h) as [s|] eqn:Hs; [|apply accounted_refl].
  destruct (truthy (normalizedNumber s)); [|count_up].
  destruct (ws s); count_up.
Qed.

Lemma resume_accounted env h w h0 :
  accounted h0 (snd (api_pair_resume env h w))
    (sessions w !! h0) (sessions (fst (api_pair_resume env h w)) !! h0).
Proof.
  unfold api_pair_resume.
  destruct (sessions w !! h) as [s|] eqn:Hs; [|apply accounted_refl].
  destruct (pairingCodePromise s) as [|r|m];
    [apply accounted_refl| |apply catch_accounted].
  destruct (error r) as [m|]; [|count_up].
  destruct (truthy m); [apply catch_accounted|count_up].
Qed.

Lemma update_accounted env h u w h0 :
  accounted h0 (snd (on_connection_update env h u w))
    (sessions w !! h0) (sessions (fst (on_connection_update env h u w)) !! h0).
Proof.
  unfold on_connection_update.
  destruct (sessions w !! h) as [s|] eqn:Hs; [|apply accounted_refl].
  destruct (wants_pairing_code s u) eqn:Hw; [|apply tail_accounted].
  unfold wants_pairing_code in Hw.
  apply andb_true_iff in Hw as [Hw _]. apply andb_true_iff in Hw as [_ Hw].
  apply negb_true_iff in Hw.
  cbn [fst snd sessions set_session].
  settle_handle h0 h.
  - rewrite Hs. count_up.
  - count_up.
Qed.

Lemma settled_accounted env h r w h0 :
  accounted h0 (snd (on_pairing_code_settled env h r w))
    (sessions w !! h0) (sessions (fst (on_pairing_code_settled env h r w)) !! h0).
Proof.
  unfold on_pairing_code_settled.
  destruct (sessions w !! h) as [s|] eqn:Hs; [|apply accounted_refl].
  destruct (suspended s) as [u|]; [|apply accounted_refl].
  set (w1 := set_session h _ w).
  assert (H1 : accounted h0 [] (sessions w !! h0) (sessions w1 !! h0)).
  { subst w1. cbn [sessions set_session]. settle_handle h0 h.
    - rewrite Hs. count_up.
    - apply accounted_refl. }
  pose proof (tail_accounted env h u w1 h0) as H2.
  destruct (connection_update_tail env h u w1) as [w2 a2]. cbn [fst snd] in H2.
  pose proof (accounted_trans _ _ _ _ _ _ H1 H2) as H12. cbn [app] in H12.
  destruct (is_pending (pairingCodePromise s)); [|exact H12].
  pose proof (resume_accounted env h w2 h0) as H3.
  destruct (api_pair_resume env h w2) as [w3 a3]. cbn [fst snd] in *.
  exact (accounted_trans _ _ _ _ _ _ H12 H3).
Qed.

Lemma deadline_accounted env h w h0 :
  accounted h0 (snd (on_pair_deadline env h w))
    (sessions w !! h0) (sessions (fst (on_pair_deadline env h w)) !! h0).
Proof.
  unfold on_pair_deadline.
  destruct (sessions w !! h) as [s|] eqn:Hs; [|apply accounted_refl].
  destruct (timeoutTimer s); [|apply accounted_refl].
  set (w1 := set_session h _ w).
  assert (H1 : accounted h0 [] (sessions w !! h0) (sessions w1 !! h0)).
  { subst w1. cbn [sessions set_session]. settle_handle h0 h.
    - rewrite Hs. count_up.
    - apply accounted_refl. }
  destruct (is_pending (pairingCodePromise s)); [|exact H1].
  exact (accounted_trans _ _ _ _ _ _ H1 (resume_accounted env h w1 h0)).
Qed.

Lemma delivery_accounted env h zip send_ok w h0 :
  accounted h0 (snd (on_delivery_timeout env h zip send_ok w))
    (sessions w !! h0)
    (sessions (fst (on_delivery_timeout env h zip send_ok w)) !! h0).
Proof.
  unfold on_delivery_timeout.
  destruct (sessions w !! h) as [s|] eqn:Hs; [|apply accounted_refl].
  destruct (deliveryTimer s) eqn:Hd; [|apply accounted_refl].
  unfold sendCredsToUser, zipSessionFolder.
  destruct zip as [|m created]; [destruct send_ok|];
    cbn [fst snd sessions set_session set_disk];
    (settle_handle h0 h; [rewrite Hs; count_up | count_up]).
Qed.

Lemma connect_accounted env n init now w h0 :
  sessions w !! nextConn w = None →
  accounted h0 (snd (api_pair_connect env n init now w))
    (sessions w !! h0) (sessions (fst (api_pair_connect env n init now w)) !! h0).
Proof.
  intros Hfresh. unfold api_pair_connect.
  destruct init as [m|ws0 r0]; [count_up|].
  cbn [fst snd sessions].
  settle_handle h0 (nextConn w).
  - rewrite Hfresh. count_up.
  - count_up.
Qed.

Lemma step_accounted env st w h0 :
  sessions w !! nextConn w = None →
  accounted h0 (snd (step env st w))
    (sessions w !! h0) (sessions (fst (step env st w)) !! h0).
Proof.
  intros Hfresh. destruct st; cbn [step].
  - unfold api_pair_begin. repeat case_match; count_up.
  - by apply connect_accounted.
  - apply update_accounted.
  - apply settled_accounted.
  - apply deadline_accounted.
  - apply delivery_accounted.
  - unfold on_creds_update. repeat case_match; count_up.
  - unfold on_transport_change.
    destruct (sessions w !! h) as [s|] eqn:Hs; [|apply accounted_refl].
    cbn [fst snd sessions set_session].
    settle_handle h0 h; [rewrite Hs; count_up | count_up].
  - count_up.
  - unfold api_download_creds, zipSessionFolder. repeat case_match; count_up.
  - unfold api_disconnect. repeat case_match; count_up.
  - unfold api_disconnect_resume. repeat case_match; count_up.
Qed.

Lemma same_handles_refl w : same_handles w w.
Proof. by split. Qed.

Lemma same_handles_trans w1 w2 w3 :
  same_handles w1 w2 → same_handles w2 w3 → same_handles w1 w3.
Proof. intros [H1 H2] [H3 H4]. split; [congruence|auto]. Qed.

Lemma same_handles_set_session h s s' w :
  sessions w !! h = Some s → same_handles w (set_session h s' w).
Proof.
  intros Hs. split; [reflexivity|].
  intros h0 H0. cbn. rewrite lookup_insert_ne; [done|congruence].
Qed.

Lemma tail_handles env h u w : same_handles w (fst (connection_update_tail env h u w)).
Proof.
  unfold connection_update_tail.
  destruct (sessions w !! h) as [s|] eqn:Hs; [|apply same_handles_refl].
  repeat case_match; try apply same_handles_refl.
  - by eapply same_handles_set_session.
  - by split.
Qed.

Lemma catch_handles env h m w : same_handles w (fst (api_pair_catch env h m w)).
Proof. unfold api_pair_catch. repeat case_match; by split. Qed.

Lemma resume_handles env h w : same_handles w (fst (api_pair_resume env h w)).
Proof.
  unfold api_pair_resume.
  repeat case_match; try apply same_handles_refl; apply catch_handles.
Qed.

Lemma step_handles env st w :
  (∀ n init now, st ≠ PairInitDone n init now) →
  same_handles w (fst (step env st w)).
Proof.
  intros Hst. destruct st; cbn [step].
  - unfold api_pair_begin. repeat case_match; simplify_eq; by split.
  - by destruct (Hst n init now).
  - unfold on_connection_update.
    destruct (sessions w !! h) as [s|] eqn:Hs; [|apply same_handles_refl].
    destruct (wants_pairing_code s u); [|apply tail_handles].
    by eapply same_handles_set_session.
  - unfold on_pairing_code_settled.
    destruct (sessions w !! h) as [s|] eqn:Hs; [|apply same_handles_refl].
    destruct (suspended s) as [u|]; [|apply same_handles_refl].
    set (w1 := set_session h _ w).
    assert (H1 : same_handles w w1) by (by eapply same_handles_set_session).
    pose proof (tail_handles env h u w1) as H2.
    destruct (connection_update_tail env h u w1) as [w2 a2]. cbn [fst] in H2.
    destruct (is_pending (pairingCodePromise s)).
    + pose proof (resume_handles env h w2) as H3.
      destruct (api_pair_resume env h w2) as [w3 a3]. cbn [fst] in *.
      eauto using same_handles_trans.
    + eauto using same_handles_trans.
  - unfold on_pair_deadline.
    destruct (sessions w !! h) as [s|] eqn:Hs; [|apply same_handles_refl].
    destruct (timeoutTimer s); [|apply same_handles_refl].
    set (w1 := set_session h _ w).
    assert (H1 : same_handles w w1) by (by eapply same_handles_set_session).
    destruct (is_pending (pairingCodePromise s)); [|exact H1].
    eauto using same_handles_trans, resume_handles.
  - unfold on_delivery_timeout.
    destruct (sessions w !! h) as [s|] eqn:Hs; [|apply same_handles_refl].
    destruct (deliveryTimer s); [|apply same_handles_refl].
    destruct (sendCredsToUser _ _ _ _ _ _) as [[ok d] acts].
    cbn [fst]. split; [reflexivity|].
    intros h0 H0. cbn. rewrite lookup_insert_ne; [done|congruence].
  - unfold on_creds_update. repeat case_match; by split.
  - unfold on_transport_change.
    destruct (sessions w !! h) as [s|] eqn:Hs; [|apply same_handles_refl].
    by eapply same_handles_set_session.
  - apply same_handles_refl.
  - unfold api_download_creds. repeat case_match; by split.
  - unfold api_disconnect. repeat case_match; simplify_eq; by split.
  - unfold api_disconnect_resume. repeat case_match; by split.
Qed.

Lemma step_fresh env st w :
  handles_fresh w → handles_fresh (fst (step env st w)).
Proof.
  intros Hf.
  assert (Hcases : (∃ n init now, st = PairInitDone n init now)
                   ∨ (∀ n init now, st ≠ PairInitDone n init now)).
  { destruct st; try (right; intros; discriminate). left; eauto. }
  destruct Hcases as [(n & init & now & ->)|Hne].
  - cbn [step]. unfold api_pair_connect. destruct init as [m|ws0 r0]; [exact Hf|].
    intros h Hh. cbn in *. rewrite lookup_insert_ne by lia. apply Hf. lia.
  - destruct (step_handles env st w Hne) as [Hn Hs].
    intros h Hh. apply Hs, Hf. lia.
Qed.

Lemma step_consistent env st w acts :
  consistent w acts →
  consistent (fst (step env st w)) (acts ++ snd (step env st w)).
Proof.
  intros [Hf Hc]. split; [by apply step_fresh|].
  intros h. specialize (Hc h).
  pose proof (step_accounted env st w h (Hf _ (Nat.le_refl _))) as Ha.
  unfold counters_agree, accounted in *. rewrite !tally_app. lia.
Qed.

Lemma run_cons env st stims w :
  run env (st :: stims) w
  = (fst (run env stims (fst (step env st w))),
     snd (step env st w) ++ snd (run env stims (fst (step env st w))))%list.
Proof.
  cbn [run]. destruct (step env st w) as [w1 a1].
  cbn [fst snd]. destruct (run env stims w1) as [w2 a2]. reflexivity.
Qed.

Lemma run_app env s1 s2 w :
  run env (s1 ++ s2) w
  = (fst (run env s2 (fst (run env s1 w))),
     snd (run env s1 w) ++ snd (run env s2 (fst (run env s1 w))))%list.
Proof.
  revert w. induction s1 as [|st s1 IH]; intros w.
  - cbn. by destruct (run env s2 w).
  - rewrite <- app_comm_cons, !run_cons, IH. cbn [fst snd].
    by rewrite app_assoc.
Qed.

Lemma run_consistent env stims w acts :
  consistent w acts →
  consistent (fst (run env stims w)) (acts ++ snd (run env stims w)).
Proof.
  revert w acts. induction stims as [|st stims IH]; intros w acts Hc.
  - cbn. by rewrite app_nil_r.
  - rewrite run_cons. cbn [fst snd]. rewrite app_assoc.
    apply IH. by apply step_consistent.
Qed.

Lemma initial_consistent : consistent initial_world [].
Proof.
  split.
  - intros h _. apply lookup_empty.
  - intros h. unfold counters_agree. cbn. rewrite lookup_empty. cbn. lia.
Qed.

Lemma run_fresh env stims w :
  handles_fresh w → handles_fresh (fst (run env stims w)).
Proof.
  revert w. induction stims as [|st stims IH]; intros w Hf; [exact Hf|].
  rewrite run_cons. cbn [fst]. by apply IH, step_fresh.
Qed.

Lemma run_accounted env stims w h :
  handles_fresh w →
  accounted h (snd (run env stims w))
    (sessions w !! h) (sessions (fst (run env stims w)) !! h).
Proof.
  revert w. induction stims as [|st stims IH]; intros w Hf.
  - apply accounted_refl.
  - rewrite run_cons. cbn [fst snd].
    eapply accounted_trans.
    + apply step_accounted, Hf. lia.
    + by apply IH, step_fresh.
Qed.

Lemma reachable_consistent env stims :
  consistent (fst (run env stims initial_world)) (snd (run env stims initial_world)).
Proof.
  exact (run_consistent env stims initial_world [] initial_consistent).
Qed.

Lemma requested_le_1 o : (requested o ≤ 1)%nat.
Proof. destruct o as [s|]; cbn; [destruct (pairingCodeRequested s)|]; cbn; lia. Qed.

Lemma delivery_latched_le_1 o : (delivery_latched o ≤ 1)%nat.
Proof. destruct o as [s|]; cbn; [destruct (credsSent s)|]; cbn; lia. Qed.

Lemma requested_1 o :
  requested o = 1%nat ↔ ∃ s, o = Some s ∧ pairingCodeRequested s = true.
Proof.
  split.
  - destruct o as [s|]; cbn; [|discriminate].
    destruct (pairingCodeRequested s) eqn:E; cbn; [eauto|discriminate].
  - intros (s & -> & E). cbn. by rewrite E.
Qed.

(** A readiness event for an unregistered session leaves the latch set. *)
Lemma ready_update_latches env h s u w :
  sessions w !! h = Some s →
  registered s = false →
  is_ready u = true →
  requested (sessions (fst (on_connection_update env h u w)) !! h) = 1%nat.
Proof.
  intros Hs Hr Hu.
  destruct (pairingCodeRequested s) eqn:Hl.
  - pose proof (update_accounted env h u w h) as (Ha & _ & _).
    rewrite Hs in Ha. cbn [requested] in Ha. rewrite Hl in Ha. cbn [b2n] in Ha.
    pose proof (requested_le_1 (sessions (fst (on_connection_update env h u w)) !! h)).
    lia.
  - unfold on_connection_update, wants_pairing_code.
    rewrite Hs, Hu, Hl, Hr. cbn. by rewrite lookup_insert_eq.
Qed.

(** ** The pairing-code request *)

Lemma tally_In_request h n acts :
  In (CallRequestPairingCode h n) acts → tally (is_request h) acts ≠ 0%nat.
Proof.
  induction acts as [|a acts IH]; [intros []|].
  intros [->|Hin]; cbn.
  - rewrite bool_decide_eq_true_2 by done. lia.
  - specialize (IH Hin). lia.
Qed.

Lemma tail_requests env h u w h0 :
  tally (is_request h0) (snd (connection_update_tail env h u w)) = 0%nat.
Proof. unfold connection_update_tail. repeat case_match; reflexivity. Qed.

Lemma catch_requests env h m w h0 :
  tally (is_request h0) (snd (api_pair_catch env h m w)) = 0%nat.
Proof. unfold api_pair_catch. repeat case_match; reflexivity. Qed.

Lemma resume_requests env h w h0 :
  tally (is_request h0) (snd (api_pair_resume env h w)) = 0%nat.
Proof.
  unfold api_pair_resume.
  repeat case_match; try reflexivity; apply catch_requests.
Qed.

Lemma other_stimuli_request_nothing env st w h0 :
  (∀ h u, st ≠ ConnectionUpdate h u) →
  tally (is_request h0) (snd (step env st w)) = 0%nat.
Proof.
  intros Hst. destruct st; cbn [step].
  - unfold api_pair_begin. repeat case_match; simplify_eq; reflexivity.
  - unfold api_pair_connect. repeat case_match; reflexivity.
  - by destruct (Hst h u).
  - unfold on_pairing_code_settled.
    destruct (sessions w !! h) as [s|]; [|reflexivity].
    destruct (suspended s) as [u|]; [|reflexivity].
    set (w1 := set_session h _ w).
    pose proof (tail_requests env h u w1 h0) as H2.
    destruct (connection_update_tail env h u w1) as [w2 a2]. cbn [snd] in H2.
    destruct (is_pending (pairingCodePromise s)); [|exact H2].
    pose proof (resume_requests env h w2 h0) as H3.
    destruct (api_pair_resume env h w2) as [w3 a3]. cbn [snd] in *.
    rewrite tally_app. lia.
  - unfold on_pair_deadline.
    repeat case_match; try reflexivity; apply resume_requests.
  - unfold on_delivery_timeout, sendCredsToUser, zipSessionFolder.
    repeat case_match; simplify_eq; reflexivity.
  - unfold on_creds_update. repeat case_match; reflexivity.
  - unfold on_transport_change. repeat case_match; reflexivity.
  - reflexivity.
  - unfold api_download_creds, zipSessionFolder.
    repeat case_match; simplify_eq; reflexivity.
  - unfold api_disconnect. repeat case_match; simplify_eq; reflexivity.
  - unfold api_disconnect_resume. repeat case_match; reflexivity.
Qed.

(** C10. A [connection.update] delivered to a session whose credentials
    are registered makes no call to [requestPairingCode], whatever the event
    carries; and whenever any stimulus makes the server call
    [requestPairingCode] on a handle, that stimulus is a readiness event
    ([connecting] or a QR) for a session whose credentials are not
    registered and whose latch was still clear. *)
Theorem C10_registered_session_never_requests env :
  (∀ (w : World) (h : nat) (s : Session) (u : Update),
     sessions w !! h = Some s →
     registered s = true →
     ∀ h', tally (is_request h') (snd (on_connection_update env h u w)) = 0%nat)
  ∧ (∀ (st : Stimulus) (w : World) (h : nat) (n : string),
       In (CallRequestPairingCode h n) (snd (step env st w)) →
       ∃ u s, st = ConnectionUpdate h u
              ∧ is_ready u = true
              ∧ sessions w !! h = Some s
              ∧ registered s = false
              ∧ pairingCodeRequested s = false
              ∧ n = normalizedNumber s).
Proof.
  split.
  - intros w h s u Hs Hr h'. unfold on_connection_update, wants_pairing_code.
    rewrite Hs, Hr, andb_false_r. apply tail_requests.
  - intros st w h n Hin.
    assert (Hcases : (∃ h1 u, st = ConnectionUpdate h1 u)
                     ∨ (∀ h1 u, st ≠ ConnectionUpdate h1 u)).
    { destruct st; try (right; intros; discriminate). left; eauto. }
    destruct Hcases as [(h1 & u & ->)|Hne].
    + cbn [step] in Hin. unfold on_connection_update in Hin.
      destruct (sessions w !! h1) as [s|] eqn:Hs; [|destruct Hin].
      destruct (wants_pairing_code s u) eqn:Hw.
      * destruct Hin as [Heq|[]]. injection Heq as Hh Hn. subst h1 n.
        unfold wants_pairing_code in Hw.
        apply andb_true_iff in Hw as [Hw Hreg].
        apply andb_true_iff in Hw as [Hready Hlatch].
        apply negb_true_iff in Hreg, Hlatch.
        exists u, s. by repeat split.
      * apply tally_In_request in Hin. by rewrite tail_requests in Hin.
    + apply tally_In_request in Hin.
      by rewrite other_stimuli_request_nothing in Hin.
Qed.

Lemma C10_registered_session_never_requests_witness :
  ∃ s, sessions open_world !! 0%nat = Some s
       ∧ registered s = true
       ∧ tally (is_request 0)
           (snd (on_connection_update env0 0 (ev (Some ConnConnecting) (Some "2@qr") None)
                   open_world)) = 0%nat.
Proof.
  eexists. split; [vm_compute; reflexivity|]. split; [reflexivity|].
  refine (proj1 (C10_registered_session_never_requests env0) open_world 0%nat _ _ _ _ 0%nat);
    vm_compute; reflexivity.
Defined.

(** *** The timer-driven revision *)

Lemma legacy_step_accounted env st w h0 :
  legacy_fresh w →
  legacy_accounted h0 (snd (Legacy.step env st w))
    (Legacy.sessions w !! h0) (Legacy.sessions (fst (Legacy.step env st w)) !! h0).
Proof.
  intros Hf. unfold legacy_accounted.
  destruct st; cbn [Legacy.step].
  - unfold Legacy.api_pair_begin. repeat case_match; simplify_eq; reflexivity.
  - unfold Legacy.api_pair_connect. destruct init as [m|ws0 r0]; [reflexivity|].
    cbn. settle_handle h0 (Legacy.nextConn w); [|reflexivity].
    by rewrite (Hf _ (Nat.le_refl _)).
  - unfold Legacy.on_connection_update. repeat case_match; reflexivity.
  - unfold Legacy.on_settle_timer.
    destruct (Legacy.sessions w !! h) as [s|] eqn:Hs; [|reflexivity].
    destruct (Legacy.settleTimer s) eqn:Ht; [|reflexivity].
    cbn. settle_handle h0 h.
    + rewrite Hs. cbn. rewrite Ht. by rewrite bool_decide_eq_true_2.
    + by rewrite bool_decide_eq_false_2.
  - unfold Legacy.on_pairing_code_settled.
    destruct (Legacy.sessions w !! h) as [s|] eqn:Hs; [|reflexivity].
    destruct (Legacy.requesting s); [|reflexivity].
    destruct r as [c|[m [|]]]; cbn;
      (settle_handle h0 h; [by rewrite Hs|reflexivity]).
  - unfold Legacy.on_creds_update. repeat case_match; reflexivity.
  - unfold Legacy.on_transport_change.
    destruct (Legacy.sessions w !! h) as [s|] eqn:Hs; [|reflexivity].
    cbn. settle_handle h0 h; [by rewrite Hs|reflexivity].
  - reflexivity.
  - unfold Legacy.api_disconnect. repeat case_match; simplify_eq; reflexivity.
  - unfold Legacy.api_disconnect_resume. repeat case_match; reflexivity.
Qed.

Lemma legacy_step_fresh env st w :
  legacy_fresh w → legacy_fresh (fst (Legacy.step env st w)).
Proof.
  intros Hf h0. destruct st; cbn [Legacy.step].
  - unfold Legacy.api_pair_begin. repeat case_match; simplify_eq; apply Hf.
  - unfold Legacy.api_pair_connect. destruct init as [m|ws0 r0]; [apply Hf|].
    cbn. intros Hh. rewrite lookup_insert_ne by lia. apply Hf. lia.
  - unfold Legacy.on_connection_update. repeat case_match; apply Hf.
  - unfold Legacy.on_settle_timer.
    destruct (Legacy.sessions w !! h) as [s|] eqn:Hs; [|apply Hf].
    destruct (Legacy.settleTimer s); [|apply Hf].
    cbn. intros Hh. rewrite lookup_insert_ne; [by apply Hf|].
    intros ->. by rewrite (Hf _ Hh) in Hs.
  - unfold Legacy.on_pairing_code_settled.
    destruct (Legacy.sessions w !! h) as [s|] eqn:Hs; [|apply Hf].
    destruct (Legacy.requesting s); [|apply Hf].
    destruct r as [c|[m [|]]]; cbn; intros Hh;
      (rewrite lookup_insert_ne; [by apply Hf|intros ->; by rewrite (Hf _ Hh) in Hs]).
  - unfold Legacy.on_creds_update. repeat case_match; apply Hf.
  - unfold Legacy.on_transport_change.
    destruct (Legacy.sessions w !! h) as [s|] eqn:Hs; [|apply Hf].
    cbn. intros Hh. rewrite lookup_insert_ne; [by apply Hf|].
    intros ->. by rewrite (Hf _ Hh) in Hs.
  - apply Hf.
  - unfold Legacy.api_disconnect. repeat case_match; simplify_eq; apply Hf.
  - unfold Legacy.api_disconnect_resume. repeat case_match; apply Hf.
Qed.

Lemma legacy_run_cons env st stims w :
  Legacy.run env (st :: stims) w
  = (fst (Legacy.run env stims (fst (Legacy.step env st w))),
     snd (Legacy.step env st w)
     ++ snd (Legacy.run env stims (fst (Legacy.step env st w))))%list.
Proof.
  cbn [Legacy.run]. destruct (Legacy.step env st w) as [w1 a1].
  cbn [fst snd]. destruct (Legacy.run env stims w1) as [w2 a2]. reflexivity.
Qed.

Lemma legacy_run_app env s1 s2 w :
  Legacy.run env (s1 ++ s2) w
  = (fst (Legacy.run env s2 (fst (Legacy.run env s1 w))),
     snd (Legacy.run env s1 w)
     ++ snd (Legacy.run env s2 (fst (Legacy.run env s1 w))))%list.
Proof.
  revert w. induction s1 as [|st s1 IH]; intros w.
  - cbn. by destruct (Legacy.run env s2 w).
  - rewrite <- app_comm_cons, !legacy_run_cons, IH. cbn [fst snd].
    by rewrite app_assoc.
Qed.

Lemma legacy_run_fresh env stims w :
  legacy_fresh w → legacy_fresh (fst (Legacy.run env stims w)).
Proof.
  revert w. induction stims as [|st stims IH]; intros w Hf; [exact Hf|].
  rewrite legacy_run_cons. cbn [fst]. by apply IH, legacy_step_fresh.
Qed.

Lemma legacy_run_accounted env stims w h :
  legacy_fresh w →
  legacy_accounted h (snd (Legacy.run env stims w))
    (Legacy.sessions w !! h) (Legacy.sessions (fst (Legacy.run env stims w)) !! h).
Proof.
  revert w. induction stims as [|st stims IH]; intros w Hf.
  - unfold legacy_accounted. reflexivity.
  - rewrite legacy_run_cons. cbn [fst snd].
    pose proof (legacy_step_accounted env st w h Hf) as H1.
    pose proof (IH _ (legacy_step_fresh env st w Hf)) as H2.
    unfold legacy_accounted in *. rewrite tally_app. lia.
Qed.

Lemma legacy_initial_fresh : legacy_fresh Legacy.initial_world.
Proof. intros h _. apply lookup_empty. Qed.

Lemma settle_fired_le_1 o : (settle_fired o ≤ 1)%nat.
Proof. destruct o as [s|]; cbn; [destruct (Legacy.settleTimer s)|]; cbn; lia. Qed.

(** C2 as stated fails: two readiness signals reach the session of handle
    0 (a [connecting] event and a QR), its credentials are registered by
    then, and [requestPairingCode] is called zero times, not once. *)
Lemma C2_counterexample :
  is_ready (ev (Some ConnConnecting) None None) = true
  ∧ is_ready (ev None (Some "2@qr") None) = true
  ∧ tally (is_request 0) (snd (run env0 registered_run initial_world)) = 0%nat
  ∧ tally (is_request 0) (snd (run env0 registered_run initial_world)) ≠ 1%nat.
Proof. vm_compute. repeat split; congruence. Qed.

(** C2, amended. In every run of the server, whatever readiness signals
    and other stimuli arrive and in whatever order, [requestPairingCode] is
    called at most once per socket; it is called exactly once as soon as
    one readiness signal ([connecting] or a QR) reaches the session while
    its credentials are not registered, however many signals follow; and
    a [pairingCodeRequested] latch that is set stays set.  In the
    timer-driven revision the call is made at most once per socket as
    well, exactly once as soon as the settle timer of the session has
    fired, and never by a connection event. *)
Theorem C2_pairing_code_requested_once env :
  (∀ (stims : list Stimulus) (h : nat),
     (tally (is_request h) (snd (run env stims initial_world)) ≤ 1)%nat)
  ∧ (∀ (pre post : list Stimulus) (h : nat) (s : Session) (u : Update),
       sessions (fst (run env pre initial_world)) !! h = Some s →
       registered s = false →
       is_ready u = true →
       tally (is_request h)
         (snd (run env (pre ++ ConnectionUpdate h u :: post) initial_world)) = 1%nat)
  ∧ (∀ (pre post : list Stimulus) (h : nat) (s : Session),
       sessions (fst (run env pre initial_world)) !! h = Some s →
       pairingCodeRequested s = true →
       ∃ s', sessions (fst (run env (pre ++ post) initial_world)) !! h = Some s'
             ∧ pairingCodeRequested s' = true)
  ∧ (∀ (stims : list Legacy.Stimulus) (h : nat),
       (tally (is_request h) (snd (Legacy.run env stims Legacy.initial_world)) ≤ 1)%nat)
  ∧ (∀ (pre post : list Legacy.Stimulus) (h : nat) (s : Legacy.Session),
       Legacy.sessions (fst (Legacy.run env pre Legacy.initial_world)) !! h = Some s →
       tally (is_request h)
         (snd (Legacy.run env (pre ++ Legacy.SettleTimer h :: post)
                 Legacy.initial_world)) = 1%nat)
  ∧ (∀ (w : Legacy.World) (h : nat) (u : Update) (h' : nat),
       tally (is_request h') (snd (Legacy.on_connection_update env h u w)) = 0%nat).
Proof.
  split_and!.
  - intros stims h.
    destruct (reachable_consistent env stims) as [_ Hc].
    destruct (Hc h) as [-> _]. apply requested_le_1.
  - intros pre post h s u Hs Hr Hu.
    set (stims := (pre ++ ConnectionUpdate h u :: post)%list).
    destruct (reachable_consistent env stims) as [_ Hc].
    destruct (Hc h) as [-> _].
    pose proof (requested_le_1 (sessions (fst (run env stims initial_world)) !! h)) as Hle.
    subst stims. rewrite run_app in Hle |- *. cbn [fst] in Hle |- *.
    set (w1 := fst (run env pre initial_world)) in *.
    rewrite run_cons in Hle |- *. cbn [fst] in Hle |- *.
    pose proof (ready_update_latches env h s u w1 Hs Hr Hu) as Hset.
    cbn [step] in Hle |- *.
    assert (Hf : handles_fresh (fst (on_connection_update env h u w1))).
    { apply (step_fresh env (ConnectionUpdate h u)).
      apply (reachable_consistent env pre). }
    pose proof (run_accounted env post _ h Hf) as (Ha & _). lia.
  - intros pre post h s Hs Hl.
    rewrite run_app. cbn [fst].
    set (w1 := fst (run env pre initial_world)) in *.
    assert (Hf : handles_fresh w1) by apply (reachable_consistent env pre).
    pose proof (run_accounted env post w1 h Hf) as (Ha & _).
    rewrite Hs in Ha. cbn [requested] in Ha. rewrite Hl in Ha. cbn [b2n] in Ha.
    apply requested_1.
    pose proof (requested_le_1 (sessions (fst (run env post w1)) !! h)). lia.
  - intros stims h.
    pose proof (legacy_run_accounted env stims _ h legacy_initial_fresh) as Ha.
    unfold legacy_accounted in Ha.
    rewrite (legacy_initial_fresh h (Nat.le_0_l h)) in Ha. cbn [settle_fired] in Ha.
    pose proof (settle_fired_le_1
                  (Legacy.sessions (fst (Legacy.run env stims Legacy.initial_world)) !! h)).
    lia.
  - intros pre post h s Hs.
    set (stims := (pre ++ Legacy.SettleTimer h :: post)%list).
    pose proof (legacy_run_accounted env stims _ h legacy_initial_fresh) as Ha.
    unfold legacy_accounted in Ha.
    rewrite (legacy_initial_fresh h (Nat.le_0_l h)) in Ha. cbn [settle_fired] in Ha.
    pose proof (settle_fired_le_1
                  (Legacy.sessions (fst (Legacy.run env stims Legacy.initial_world)) !! h))
      as Hle.
    subst stims. rewrite legacy_run_app in Ha, Hle |- *. cbn [fst snd] in Ha, Hle |- *.
    set (w1 := fst (Legacy.run env pre Legacy.initial_world)) in *.
    rewrite legacy_run_cons in Ha, Hle |- *. cbn [fst snd] in Ha, Hle |- *.
    cbn [Legacy.step] in Ha, Hle |- *.
    assert (Hf1 : legacy_fresh w1) by apply legacy_run_fresh, legacy_initial_fresh.
    assert (Hfired : settle_fired
                       (Legacy.sessions (fst (Legacy.on_settle_timer h w1)) !! h) = 1%nat).
    { unfold Legacy.on_settle_timer. rewrite Hs.
      destruct (Legacy.settleTimer s) eqn:Ht; cbn.
      - by rewrite lookup_insert_eq.
      - rewrite Hs. cbn. by rewrite Ht. }
    pose proof (legacy_run_accounted env post (fst (Legacy.on_settle_timer h w1)) h) as Hp.
    unfold legacy_accounted in Hp.
    specialize (Hp (legacy_step_fresh env (Legacy.SettleTimer h) w1 Hf1)).
    lia.
  - intros w h u h'. unfold Legacy.on_connection_update.
    repeat case_match; reflexivity.
Qed.

Lemma C2_pairing_code_requested_once_witness :
  ∃ s, sessions (fst (run env0 waiting_run initial_world)) !! 0%nat = Some s
       ∧ registered s = false
       ∧ is_ready (ev None (Some "2@qr") None) = true
       ∧ tally (is_request 0)
           (snd (run env0
                   (waiting_run
                    ++ ConnectionUpdate 0 (ev None (Some "2@qr") None)
                    :: [ConnectionUpdate 0 (ev (Some ConnConnecting) None None);
                        PairingCodeSettled 0 (inl "ABC-123");
                        ConnectionUpdate 0 (ev (Some ConnConnecting) (Some "2@qr") None)])
                   initial_world)) = 1%nat.
Proof.
  eexists. split; [vm_compute; reflexivity|]. split; [reflexivity|].
  split; [reflexivity|].
  refine (proj1 (proj2 (C2_pairing_code_requested_once env0)) waiting_run _ 0%nat _ _ _ _ _);
    vm_compute; reflexivity.
Defined.

(** ** Credential delivery *)

Lemma zip_path_differs (dir : string) : dir ++ ".zip" ≠ dir.
Proof.
  induction dir as [|c dir IH]; [discriminate|].
  intros H. apply IH.
  change (String c (dir ++ ".zip") = String c dir) in H. by injection H.
Qed.

(** C3. In every run of the server, whatever [open] events (and other
    stimuli) arrive, the delivery timer of a socket is set at most once and
    its credential bundle is sent at most once.  When the timer fires,
    whatever the outcome of zipping and sending, the registry and the
    handle counter are unchanged, no closure variable or promise of any
    session changes (only the fired timer is gone), no new delivery timer is
    set, and on the disk only the path of the zip file can differ, so the
    credential directory is as it was. *)
Theorem C3_credentials_delivered_at_most_once env :
  (∀ (stims : list Stimulus) (h : nat),
     (tally (is_delivery_timer h) (snd (run env stims initial_world)) ≤ 1)%nat
     ∧ (tally (is_send h) (snd (run env stims initial_world)) ≤ 1)%nat)
  ∧ (∀ (w : World) (h : nat) (zip : ZipOutcome) (send_ok : bool),
       let w' := fst (on_delivery_timeout env h zip send_ok w) in
       let acts := snd (on_delivery_timeout env h zip send_ok w) in
       activeConnections w' = activeConnections w
       ∧ nextConn w' = nextConn w
       ∧ (∀ h', with_delivery_fired <$> sessions w' !! h'
                = with_delivery_fired <$> sessions w !! h')
       ∧ (∀ h', tally (is_delivery_timer h') acts = 0%nat)
       ∧ (∀ p, (∀ s, sessions w !! h = Some s
                     → p ≠ session_path env (normalizedNumber s) ++ ".zip")
               → disk w' !! p = disk w !! p)
       ∧ (∀ s, sessions w !! h = Some s
               → disk w' !! session_path env (normalizedNumber s)
                 = disk w !! session_path env (normalizedNumber s))).
Proof.
  split.
  - intros stims h.
    destruct (reachable_consistent env stims) as [_ Hc].
    destruct (Hc h) as (_ & Ht & Hs).
    pose proof (delivery_latched_le_1 (sessions (fst (run env stims initial_world)) !! h)).
    lia.
  - intros w h zip send_ok w' acts. subst w' acts.
    assert (Hdisk : ∀ p, (∀ s, sessions w !! h = Some s
                     → p ≠ session_path env (normalizedNumber s) ++ ".zip")
               → disk (fst (on_delivery_timeout env h zip send_ok w)) !! p = disk w !! p).
    { intros p Hp. unfold on_delivery_timeout.
      destruct (sessions w !! h) as [s|] eqn:Hs; [|reflexivity].
      specialize (Hp s eq_refl).
      destruct (deliveryTimer s); [|reflexivity].
      unfold sendCredsToUser, zipSessionFolder, unlinkSync.
      destruct zip as [|m [|]]; [destruct send_ok| |]; cbn;
        rewrite ?lookup_delete_ne, ?lookup_insert_ne by congruence; reflexivity. }
    split_and!.
    + unfold on_delivery_timeout.
      destruct (sessions w !! h) as [s|]; [|reflexivity].
      destruct (deliveryTimer s); [|reflexivity].
      by destruct (sendCredsToUser _ _ _ _ _ _) as [[ok d] a].
    + unfold on_delivery_timeout.
      destruct (sessions w !! h) as [s|]; [|reflexivity].
      destruct (deliveryTimer s); [|reflexivity].
      by destruct (sendCredsToUser _ _ _ _ _ _) as [[ok d] a].
    + intros h'. unfold on_delivery_timeout.
      destruct (sessions w !! h) as [s|] eqn:Hs; [|reflexivity].
      destruct (deliveryTimer s); [|reflexivity].
      destruct (sendCredsToUser _ _ _ _ _ _) as [[ok d] a]. cbn.
      settle_handle h' h; [|reflexivity]. by rewrite Hs.
    + intros h'. unfold on_delivery_timeout, sendCredsToUser, zipSessionFolder.
      repeat case_match; simplify_eq; reflexivity.
    + exact Hdisk.
    + intros s Hs. apply Hdisk. intros s' Hs'. simplify_eq.
      intros H. by apply (zip_path_differs (session_path env (normalizedNumber s))).
Qed.

Lemma C3_credentials_delivered_at_most_once_witness :
  activeConnections
    (fst (on_delivery_timeout env0 0 (ZipRejected "archiver: EACCES" true) false open_world))
  = activeConnections open_world
  ∧ is_Some (activeConnections open_world !! alice).
Proof.
  split.
  - exact (proj1 (proj2 (C3_credentials_delivered_at_most_once env0)
                    open_world 0%nat (ZipRejected "archiver: EACCES" true) false)).
  - vm_compute. eauto.
Defined.

(** ** The pairing deadline *)

(** C1 as stated fails: a registration of [alice] whose pairing code has
    not arrived when the 30 s timer fires is answered with the timeout
    error, and by then the socket has been closed, the registry entry is
    gone and the credential directory is gone, although both existed while
    the request was waiting. *)
Lemma C1_counterexample :
  is_Some (activeConnections waiting_world !! alice)
  ∧ is_Some (disk waiting_world !! session_path env0 alice)
  ∧ snd (step env0 (PairDeadline 0) waiting_world)
    = [CallWsClose 0;
       Respond {| status := 500; body := PairFailure "Pairing code request timeout" |}]
  ∧ activeConnections (fst (step env0 (PairDeadline 0) waiting_world)) !! alice = None
  ∧ disk (fst (step env0 (PairDeadline 0) waiting_world)) !! session_path env0 alice
    = None.
Proof. vm_compute. repeat split; eauto. Qed.

(** C1, amended. When the 30 s timer of a registration fires while its
    pairing promise is still pending, the handler tears the session down
    and then answers with the timeout error: the session directory is
    removed, the socket is closed if it has a [ws], the identity's registry
    entry is deleted, and the 500 response carrying "Pairing code request
    timeout" is the last action. *)
Theorem C1_deadline_tears_down env (w : World) (h : nat) (s : Session) :
  sessions w !! h = Some s →
  timeoutTimer s = true →
  pairingCodePromise s = Pending →
  normalizedNumber s ≠ "" →
  let n := normalizedNumber s in
  snd (on_pair_deadline env h w)
  = (match ws s with Some _ => [CallWsClose h] | None => [] end
     ++ [Respond {| status := 500;
                    body := PairFailure "Pairing code request timeout" |}])%list
  ∧ activeConnections (fst (on_pair_deadline env h w))
    = delete n (activeConnections w)
  ∧ disk (fst (on_pair_deadline env h w)) = delete (session_path env n) (disk w)
  ∧ activeConnections (fst (on_pair_deadline env h w)) !! n = None
  ∧ disk (fst (on_pair_deadline env h w)) !! session_path env n = None.
Proof.
  intros Hs Ht Hp Hn n. subst n.
  unfold on_pair_deadline. rewrite Hs, Ht, Hp. cbn [is_pending].
  unfold api_pair_resume. cbn [sessions set_session].
  rewrite lookup_insert_eq.
  cbn [pairingCodePromise with_deadline]. rewrite Hp. cbn [settle].
  erewrite catch_clears;
    [|cbn [sessions set_session]; apply lookup_insert_eq|exact Hn].
  cbn. rewrite !lookup_delete_eq. done.
Qed.

Lemma C1_deadline_tears_down_witness :
  ∃ s, sessions waiting_world !! 0%nat = Some s
       ∧ timeoutTimer s = true
       ∧ pairingCodePromise s = Pending
       ∧ normalizedNumber s ≠ ""
       ∧ activeConnections (fst (on_pair_deadline env0 0 waiting_world))
           !! normalizedNumber s = None.
Proof.
  eexists. split; [vm_compute; reflexivity|].
  split; [reflexivity|]. split; [reflexivity|]. split; [discriminate|].
  refine (proj1 (proj2 (proj2 (proj2
            (C1_deadline_tears_down env0 waiting_world 0%nat _ _ _ _ _)))));
    try (vm_compute; reflexivity); discriminate.
Defined.

(** ** Registering an identity again *)

(** C4 as stated fails: [alice] registers a second time while her first
    session is open.  The second registration completes (the registry now
    points at socket 1 and the caller gets the new code), yet neither
    [logout] nor [ws.close] was ever called on socket 0, whose state and
    handlers are exactly what they were before, with the socket open. *)
Lemma C4_counterexample :
  let w := fst (run env0 reregister_run initial_world) in
  let acts := snd (run env0 reregister_run initial_world) in
  conn <$> activeConnections open_world !! alice = Some 0%nat
  ∧ conn <$> activeConnections w !! alice = Some 1%nat
  ∧ last acts
    = Some (Respond {| status := 200; body := PairSuccess (Some "XYZ-789") alice |})
  ∧ tally (is_teardown 0) acts = 0%nat
  ∧ sessions w !! 0%nat = sessions open_world !! 0%nat
  ∧ ws <$> sessions w !! 0%nat = Some (Some 1).
Proof. vm_compute. repeat split. Qed.

(** C4, amended. A registration for an identity that is already
    registered removes the old session directory and creates a fresh, empty
    one in its place, and overwrites the registry entry with one that
    points at the newly made socket; it makes no [logout] or [ws.close]
    call, and every socket that existed before -- the first session's
    included -- keeps its state and its handlers.  Both revisions behave
    the same. *)
Theorem C4_reregistration_replaces_entry_only env (number : BodyNumber)
    (n : string) (ws0 : option Z) (r0 : bool) (now : Z)
    (w w1 : World) (a1 : list Action)
    (lw lw1 : Legacy.World) (la1 : list Action) :
  api_pair_begin env number w = (w1, a1, Some n) →
  Legacy.api_pair_begin env number lw = (lw1, la1, Some n) →
  let w2 := fst (api_pair_connect env n (InitOk ws0 r0) now w1) in
  let a2 := snd (api_pair_connect env n (InitOk ws0 r0) now w1) in
  let lw2 := fst (Legacy.api_pair_connect n (InitOk ws0 r0) lw1) in
  let la2 := snd (Legacy.api_pair_connect n (InitOk ws0 r0) lw1) in
  (disk w2 !! session_path env n = Some (Directory [])
   ∧ activeConnections w2 !! n
     = Some {| conn := nextConn w; sessionDir := session_path env n; timestamp := now |}
   ∧ (∀ h, h ≠ nextConn w → sessions w2 !! h = sessions w !! h)
   ∧ (a1 ++ a2)%list = [CallMakeWASocket (nextConn w)]
   ∧ (∀ h, tally (is_teardown h) (a1 ++ a2) = 0%nat))
  ∧ (Legacy.disk lw2 !! session_path env n = Some (Directory [])
     ∧ Legacy.activeConnections lw2 !! n = Some (Legacy.nextConn lw)
     ∧ (∀ h, h ≠ Legacy.nextConn lw → Legacy.sessions lw2 !! h = Legacy.sessions lw !! h)
     ∧ (la1 ++ la2)%list = [CallMakeWASocket (Legacy.nextConn lw)]
     ∧ (∀ h, tally (is_teardown h) (la1 ++ la2) = 0%nat)).
Proof.
  intros Hb Hlb w2 a2 lw2 la2. subst w2 a2 lw2 la2.
  unfold api_pair_begin in Hb. unfold Legacy.api_pair_begin in Hlb.
  destruct (falsy_number number); [discriminate|].
  destruct number as [|s|]; try discriminate.
  destruct (String.length (replace_non_digits s) <? 10)%nat; [discriminate|].
  injection Hb as <- <- <-. injection Hlb as <- <-.
  rewrite !mkdir_after_remove. cbn.
  rewrite !lookup_insert_eq.
  split; split_and!; try done.
  - intros h Hh. by rewrite lookup_insert_ne.
  - intros h Hh. by rewrite lookup_insert_ne.
Qed.

Lemma C4_reregistration_replaces_entry_only_witness :
  ∃ w1 lw1,
    api_pair_begin env0 (NumString alice) open_world = (w1, [], Some alice)
    ∧ Legacy.api_pair_begin env0 (NumString alice) legacy_paired_world
      = (lw1, [], Some alice)
    ∧ (∀ h, h ≠ nextConn open_world →
            sessions (fst (api_pair_connect env0 alice (InitOk (Some 0) false) 9000 w1))
              !! h
            = sessions open_world !! h).
Proof.
  eexists. eexists.
  split; [vm_compute; reflexivity|]. split; [vm_compute; reflexivity|].
  refine (proj1 (proj2 (proj2 (proj1
            (C4_reregistration_replaces_entry_only env0 (NumString alice) alice
               (Some 0) false 9000 open_world _ [] legacy_paired_world _ [] _ _)))));
    vm_compute; reflexivity.
Defined.

(** What the surviving handlers of the first socket can still do: a
    connection-replaced close on socket 0 removes the registry entry and
    the directory that now belong to the second session. *)
Example first_socket_still_acts :
  let w := fst (run env0 reregister_run initial_world) in
  let w' := fst (step env0 (ConnectionUpdate 0 (ev (Some ConnClose) None (Some 440))) w) in
  conn <$> activeConnections w !! alice = Some 1%nat
  ∧ activeConnections w' !! alice = None
  ∧ disk w' !! session_path env0 alice = None.
Proof. vm_compute. repeat split. Qed.

(** ** Explicit disconnect *)

(** C7 as stated fails: [alice] has an open session and asks to
    disconnect, and [logout] throws.  The handler answers with the error
    and performs none of the remaining steps: [ws.close] is not called, the
    registry entry is still there and so is the credential directory. *)
Lemma C7_counterexample :
  api_disconnect_whole alice (Some "Connection Closed") open_world
  = (open_world,
     [CallLogout 0;
      Respond {| status := 500; body := ErrorBody "Connection Closed" |}])
  ∧ is_Some (activeConnections open_world !! alice)
  ∧ is_Some (disk open_world !! session_path env0 alice).
Proof. vm_compute. repeat split; eauto. Qed.

(** C7, amended. An explicit disconnect of a registered identity runs
    its steps in order inside one [try] block: [logout], then closing the
    socket, then removing the registry entry, then deleting the session
    directory.  When [logout] returns, all later steps are performed and
    the caller is told so; when [logout] throws, none of them is performed
    -- the world is unchanged -- and the caller gets the error.  In the
    timer-driven revision the same holds, and a socket without a [ws]
    stops the sequence in the same way. *)
Theorem C7_disconnect_steps_in_sequence env (number : string)
    (w : World) (c : Connection) (lw : Legacy.World) (lh : nat) :
  activeConnections w !! replace_non_digits number = Some c →
  Legacy.activeConnections lw !! replace_non_digits number = Some lh →
  let n := replace_non_digits number in
  (∀ message,
     api_disconnect_whole number (Some message) w
     = (w, [CallLogout (conn c);
            Respond {| status := 500; body := ErrorBody message |}]))
  ∧ api_disconnect_whole number None w
    = ({| activeConnections := delete n (activeConnections w);
          disk := delete (sessionDir c) (disk w);
          sessions := sessions w; nextConn := nextConn w |},
       (CallLogout (conn c)
        :: match sessions w !! conn c ≫= ws with
           | Some _ => [CallWsClose (conn c)]
           | None => []
           end
        ++ [Respond {| status := 200; body := DisconnectSuccess |}])%list)
  ∧ (∀ message,
       Legacy.api_disconnect_whole env number (Some message) lw
       = (lw, [CallLogout lh;
               Respond {| status := 500; body := ErrorBody message |}]))
  ∧ (is_Some (Legacy.sessions lw !! lh ≫= Legacy.ws) →
     Legacy.api_disconnect_whole env number None lw
     = ({| Legacy.activeConnections := delete n (Legacy.activeConnections lw);
           Legacy.pairingCodes := Legacy.pairingCodes lw;
           Legacy.disk := delete (session_path env n) (Legacy.disk lw);
           Legacy.sessions := Legacy.sessions lw;
           Legacy.nextConn := Legacy.nextConn lw |},
        [CallLogout lh; CallWsClose lh;
         Respond {| status := 200; body := MessageBody "Disconnected successfully" |}]))
  ∧ (Legacy.sessions lw !! lh ≫= Legacy.ws = None →
     fst (Legacy.api_disconnect_whole env number None lw) = lw).
Proof.
  intros Hc Hlh n. subst n.
  unfold api_disconnect_whole, Legacy.api_disconnect_whole,
    api_disconnect, Legacy.api_disconnect.
  rewrite Hc, Hlh. split_and!.
  - reflexivity.
  - unfold api_disconnect_resume. cbn. rewrite remove_if_exists_delete.
    destruct (sessions w !! conn c) as [s|]; simpl; [destruct (ws s)|]; reflexivity.
  - reflexivity.
  - intros [z Hz]. unfold Legacy.api_disconnect_resume. rewrite Hz.
    cbn. by rewrite remove_if_exists_delete.
  - intros Hz. unfold Legacy.api_disconnect_resume. by rewrite Hz.
Qed.

Lemma C7_disconnect_steps_in_sequence_witness :
  ∃ c lh,
    activeConnections open_world !! replace_non_digits alice = Some c
    ∧ Legacy.activeConnections legacy_paired_world !! replace_non_digits alice = Some lh
    ∧ ∀ message,
        api_disconnect_whole alice (Some message) open_world
        = (open_world,
           [CallLogout (conn c);
            Respond {| status := 500; body := ErrorBody message |}]).
Proof.
  eexists. eexists.
  split; [vm_compute; reflexivity|]. split; [vm_compute; reflexivity|].
  refine (proj1 (C7_disconnect_steps_in_sequence env0 alice open_world _
                   legacy_paired_world _ _ _));
    vm_compute; reflexivity.
Defined.

(** ** Status *)

Lemma tail_keeps_entry env h u w n :
  (∀ s, sessions w !! h = Some s → normalizedNumber s = n →
        is_terminal_close env u = false) →
  activeConnections (fst (connection_update_tail env h u w)) !! n
  = activeConnections w !! n.
Proof.
  intros Hk. unfold connection_update_tail.
  destruct (sessions w !! h) as [s|] eqn:Hs; [|reflexivity].
  specialize (Hk s eq_refl). unfold is_terminal_close in Hk.
  destruct (connection u) as [[| |]|]; try reflexivity.
  - by destruct (credsSent s).
  - destruct (is_terminal env (statusCode u)); [|reflexivity].
    cbn. apply lookup_delete_ne. intros E. by specialize (Hk E).
Qed.

Lemma catch_keeps_entry env h m w n :
  (∀ s, sessions w !! h = Some s → normalizedNumber s ≠ n) →
  activeConnections (fst (api_pair_catch env h m w)) !! n
  = activeConnections w !! n.
Proof.
  intros Hk. unfold api_pair_catch.
  destruct (sessions w !! h) as [s|] eqn:Hs; [|reflexivity].
  destruct (truthy (normalizedNumber s)); [|reflexivity].
  cbn. apply lookup_delete_ne. by apply Hk.
Qed.

(** The [close]/[open] chain leaves the number and the promise of every
    session alone. *)
Lemma tail_keeps_promise env h u w h0 :
  (λ s, (normalizedNumber s, pairingCodePromise s))
    <$> sessions (fst (connection_update_tail env h u w)) !! h0
  = (λ s, (normalizedNumber s, pairingCodePromise s)) <$> sessions w !! h0.
Proof.
  unfold connection_update_tail.
  destruct (sessions w !! h) as [s|] eqn:Hs; [|reflexivity].
  destruct (connection u) as [[| |]|]; try reflexivity.
  - destruct (credsSent s); [reflexivity|].
    cbn. settle_handle h0 h; [|reflexivity]. by rewrite Hs.
  - by destruct (is_terminal env (statusCode u)).
Qed.

Lemma resume_keeps_entry env h w n :
  (∀ s, sessions w !! h = Some s → normalizedNumber s = n →
        match pairingCodePromise s with
        | Pending => True
        | Fulfilled result => truthy_opt (error result) = false
        | Rejected _ => False
        end) →
  activeConnections (fst (api_pair_resume env h w)) !! n
  = activeConnections w !! n.
Proof.
  intros Hk. unfold api_pair_resume.
  destruct (sessions w !! h) as [s|] eqn:Hs; [|reflexivity].
  specialize (Hk s eq_refl).
  destruct (decide (normalizedNumber s = n)) as [E|E].
  - specialize (Hk E).
    destruct (pairingCodePromise s) as [|r|m]; [reflexivity| |done].
    destruct (error r) as [m|]; [|reflexivity].
    cbn in Hk. by rewrite Hk.
  - assert (Hc : ∀ m, activeConnections (fst (api_pair_catch env h m w)) !! n
                      = activeConnections w !! n).
    { intros m. apply catch_keeps_entry. intros s' Hs'. by simplify_eq. }
    destruct (pairingCodePromise s) as [|r|m]; [reflexivity| |apply Hc].
    destruct (error r) as [m|]; [|reflexivity].
    destruct (truthy m); [apply Hc|reflexivity].
Qed.

Lemma step_keeps_entry env n st w :
  ends_session env n st w = false →
  is_Some (activeConnections w !! n) →
  is_Some (activeConnections (fst (step env st w)) !! n).
Proof.
  intros He Hn. destruct st; cbn [step ends_session] in *.
  - unfold api_pair_begin. repeat case_match; simplify_eq; exact Hn.
  - unfold api_pair_connect. destruct init as [m|ws0 r0]; [exact Hn|].
    cbn. rewrite lookup_insert. case_decide; eauto.
  - unfold on_connection_update.
    destruct (sessions w !! h) as [s|] eqn:Hs; [|exact Hn].
    destruct (wants_pairing_code s u); [exact Hn|].
    rewrite tail_keeps_entry; [exact Hn|].
    intros s' Hs' E. simplify_eq.
    rewrite bool_decide_eq_true_2 in He by done. exact He.
  - unfold on_pairing_code_settled.
    destruct (sessions w !! h) as [s|] eqn:Hs; [|exact Hn].
    destruct (suspended s) as [u|] eqn:Hu; [|exact Hn].
    set (result := match r with
                   | inl c => {| code := Some c; error := None |}
                   | inr message => {| code := None; error := Some message |}
                   end).
    set (w1 := set_session h _ w).
    assert (Hs1 : sessions w1 !! h = Some (with_resumed (Fulfilled result) s))
      by (subst w1; cbn; apply lookup_insert_eq).
    pose proof (tail_keeps_entry env h u w1 n) as Ht.
    pose proof (tail_keeps_promise env h u w1 h) as Hp.
    destruct (connection_update_tail env h u w1) as [w2 a2]. cbn [fst] in Ht, Hp.
    rewrite Hs1 in Hp. cbn in Hp.
    assert (Hw2 : is_Some (activeConnections w2 !! n)).
    { rewrite Ht; [exact Hn|]. intros s' Hs' E. rewrite Hs1 in Hs'.
      injection Hs' as <-. cbn in E. subst n.
      rewrite bool_decide_eq_true_2 in He by done.
      cbn in He. by apply orb_false_iff in He as [He _]. }
    destruct (is_pending (pairingCodePromise s)) eqn:Hpend; [|exact Hw2].
    pose proof (resume_keeps_entry env h w2 n) as Hr.
    destruct (api_pair_resume env h w2) as [w3 a3]. cbn [fst] in *.
    rewrite Hr; [exact Hw2|].
    intros s' Hs' E. rewrite Hs' in Hp. cbn in Hp. injection Hp as Hnum Hprom.
    rewrite Hprom. destruct (pairingCodePromise s); try discriminate. cbn.
    rewrite Hnum in E. subst n.
    rewrite bool_decide_eq_true_2 in He by done.
    cbn in He. apply orb_false_iff in He as [_ He].
    subst result. by destruct r.
  - unfold on_pair_deadline.
    destruct (sessions w !! h) as [s|] eqn:Hs; [|exact Hn].
    destruct (timeoutTimer s) eqn:Ht; [|exact Hn].
    destruct (is_pending (pairingCodePromise s)) eqn:Hp; [|exact Hn].
    rewrite resume_keeps_entry; [exact Hn|].
    intros s' Hs' E. cbn in Hs'. rewrite lookup_insert_eq in Hs'. simplify_eq.
    cbn in He. rewrite bool_decide_eq_true_2 in He by done.
    discriminate.
  - unfold on_delivery_timeout.
    destruct (sessions w !! h) as [s|]; [|exact Hn].
    destruct (deliveryTimer s); [|exact Hn].
    by destruct (sendCredsToUser _ _ _ _ _ _) as [[ok d] a].
  - unfold on_creds_update. repeat case_match; exact Hn.
  - unfold on_transport_change. repeat case_match; exact Hn.
  - exact Hn.
  - unfold api_download_creds. repeat case_match; exact Hn.
  - unfold api_disconnect. repeat case_match; simplify_eq; exact Hn.
  - unfold api_disconnect_resume. destruct logout as [m|]; [exact Hn|].
    cbn. rewrite lookup_delete_ne; [exact Hn|].
    intros E. by rewrite bool_decide_eq_true_2 in He.
Qed.

Lemma run_keeps_entry env n stims w :
  undisturbed env n stims w = true →
  is_Some (activeConnections w !! n) →
  is_Some (activeConnections (fst (run env stims w)) !! n).
Proof.
  revert w. induction stims as [|st stims IH]; intros w Hu Hn; [exact Hn|].
  cbn [undisturbed] in Hu. apply andb_true_iff in Hu as [He Hu].
  apply negb_true_iff in He.
  rewrite run_cons. cbn [fst]. apply IH; [exact Hu|].
  by apply step_keeps_entry.
Qed.

(** C8 as stated fails: the registration of [alice] has completed with a
    pairing code, nothing has closed or disconnected the session, and the
    status endpoint reports the state "closed" (the socket is still
    connecting), which is none of connecting, paired and open. *)
Lemma C8_counterexample :
  last (snd (run env0 paired_run initial_world))
  = Some (Respond {| status := 200; body := PairSuccess (Some "ABC-123") alice |})
  ∧ api_status "+234 810 986 0102" 1500 paired_world
    = {| status := 200; body := StatusInfo false "closed" 1000 500 |}
  ∧ ¬ In "closed" spec_states.
Proof.
  split; [vm_compute; reflexivity|]. split; [vm_compute; reflexivity|].
  cbn. intros [H|[H|[H|[]]]]; discriminate.
Qed.

(** The timer-driven revision answers a status request for a registered
    identity with [connected: true] and the same two states, and sends no
    uptime. *)
Lemma legacy_status_of_registered (number : string) (w : Legacy.World)
    (h : nat) (readyState : Z) :
  Legacy.activeConnections w !! replace_non_digits number = Some h →
  Legacy.sessions w !! h ≫= Legacy.ws = Some readyState →
  Legacy.api_status number w
  = {| status := 200;
       body := StatusBrief true (if readyState =? 1 then "open" else "closed") |}.
Proof.
  intros Hh Hws. unfold Legacy.api_status. by rewrite Hh, Hws.
Qed.

(** * Further properties of the code *)

(** ** Normalization of phone numbers *)

Lemma replace_non_digits_all_digits s : all_digits (replace_non_digits s) = true.
Proof.
  induction s as [|c s IH]; [reflexivity|]. cbn.
  destruct (is_digit c) eqn:E; [|exact IH]. cbn. by rewrite E, IH.
Qed.

Lemma replace_non_digits_fixed s : all_digits s = true → replace_non_digits s = s.
Proof.
  induction s as [|c s IH]; [reflexivity|]. cbn.
  intros [Hc Hs]%andb_true_iff. by rewrite Hc, IH.
Qed.

Lemma replace_non_digits_length s :
  (String.length (replace_non_digits s) ≤ String.length s)%nat.
Proof.
  induction s as [|c s IH]; [reflexivity|]. cbn.
  destruct (is_digit c); cbn; lia.
Qed.

(** X1. [replace(/\D/g, "")] keeps digits only, never lengthens its
    input, leaves a digits-only string as it is, and is therefore
    idempotent: a number that has been normalized once names the same
    registry key however often it is normalized again. *)
Theorem normalization_idempotent (s : string) :
  all_digits (replace_non_digits s) = true
  ∧ (String.length (replace_non_digits s) ≤ String.length s)%nat
  ∧ (all_digits s = true → replace_non_digits s = s)
  ∧ replace_non_digits (replace_non_digits s) = replace_non_digits s.
Proof.
  split_and!.
  - apply replace_non_digits_all_digits.
  - apply replace_non_digits_length.
  - apply replace_non_digits_fixed.
  - apply replace_non_digits_fixed, replace_non_digits_all_digits.
Qed.

(** ** The first stretch of a registration *)

(** X2. Whatever [/api/pair] receives, its first stretch leaves the
    registry, the sockets and the handle counter alone.  If the handler
    stops there, the world is unchanged and exactly one response has been
    sent, with status 400 or 500.  If it goes on, nothing has been sent
    yet, the number it goes on with has at least 10 characters, all of them
    digits, and is its own normal form, and on the disk exactly the
    session directory of that number differs: it is a fresh empty
    directory, whatever was at that path before. *)
Theorem pair_begin_outcomes env (number : BodyNumber) (w w' : World)
    (acts : list Action) (o : option string) :
  api_pair_begin env number w = (w', acts, o) →
  activeConnections w' = activeConnections w
  ∧ sessions w' = sessions w
  ∧ nextConn w' = nextConn w
  ∧ match o with
    | None =>
        w' = w
        ∧ ∃ r, acts = [Respond r] ∧ (status r = 400 ∨ status r = 500)
    | Some n =>
        acts = []
        ∧ (10 ≤ String.length n)%nat
        ∧ all_digits n = true
        ∧ replace_non_digits n = n
        ∧ disk w' = <[session_path env n := Directory []]> (disk w)
    end.
Proof.
  unfold api_pair_begin. intros H.
  destruct (falsy_number number).
  { injection H as <- <- <-. split_and!; try done. eexists. split; [done|]. by left. }
  destruct number as [|s|].
  - injection H as <- <- <-. split_and!; try done. eexists. split; [done|]. by right.
  - destruct (String.length (replace_non_digits s) <? 10)%nat eqn:Hlen.
    + injection H as <- <- <-. split_and!; try done.
      eexists. split; [done|]. by left.
    + injection H as <- <- <-. apply Nat.ltb_ge in Hlen.
      split_and!; try done.
      * apply replace_non_digits_all_digits.
      * apply replace_non_digits_fixed, replace_non_digits_all_digits.
      * cbn. apply mkdir_after_remove.
  - injection H as <- <- <-. split_and!; try done. eexists. split; [done|]. by right.
Qed.

Lemma pair_begin_outcomes_witness :
  ∃ w', api_pair_begin env0 (NumString "+234 810 986 0102") open_world
        = (w', [], Some alice)
        ∧ disk w' = <[session_path env0 alice := Directory []]> (disk open_world).
Proof.
  eexists. split; [vm_compute; reflexivity|].
  refine (proj2 (proj2 (proj2 (proj2 (proj2 (proj2 (proj2
            (pair_begin_outcomes env0 (NumString "+234 810 986 0102") open_world
               _ [] (Some alice) _)))))))).
  vm_compute; reflexivity.
Defined.

(** X3. Registration and status round trip: once [/api/pair] has made the
    socket for a number, a status request finds the session under the
    number as it was typed and under its normalized digits alike, and
    reports the socket's readiness, the registration time and the time
    elapsed since. *)
Theorem status_after_registration env (typed n : string) (ws0 : option Z)
    (r0 : bool) (t0 now : Z) (w w1 : World) (a1 : list Action) :
  api_pair_begin env (NumString typed) w = (w1, a1, Some n) →
  let w2 := fst (api_pair_connect env n (InitOk ws0 r0) t0 w1) in
  let isOpen := match ws0 with Some readyState => readyState =? 1 | None => false end in
  let found :=
    {| status := 200;
       body := StatusInfo isOpen (if isOpen then "open" else "closed") t0 (now - t0) |} in
  api_status typed now w2 = found ∧ api_status n now w2 = found.
Proof.
  intros Hb w2 isOpen found. subst w2 isOpen found.
  unfold api_pair_begin in Hb.
  destruct (falsy_number (NumString typed)); [discriminate|].
  destruct (String.length (replace_non_digits typed) <? 10)%nat; [discriminate|].
  injection Hb as <- <- <-.
  unfold api_status.
  rewrite (replace_non_digits_fixed (replace_non_digits typed))
    by apply replace_non_digits_all_digits.
  cbn. rewrite ?lookup_insert_eq. cbn. rewrite ?lookup_insert_eq. done.
Qed.

Lemma status_after_registration_witness :
  ∃ w1,
    api_pair_begin env0 (NumString "+234 810 986 0102") initial_world
    = (w1, [], Some alice)
    ∧ api_status "+234 810 986 0102" 1500
        (fst (api_pair_connect env0 alice (InitOk (Some 1) false) 1000 w1))
      = {| status := 200; body := StatusInfo true "open" 1000 500 |}.
Proof.
  eexists. split; [vm_compute; reflexivity|].
  refine (proj1 (status_after_registration env0 "+234 810 986 0102" alice
                   (Some 1) false 1000 1500 initial_world _ [] _)).
  vm_compute; reflexivity.
Defined.

(** X4. When one of the library calls that make the socket throws, the
    caller gets a 500 response carrying the message and nothing is rolled
    back: the empty session directory that the first stretch created stays
    on the disk, with no registry entry and no socket for it. *)
Theorem failed_initialisation_leaves_directory env (number : BodyNumber)
    (n message : string) (now : Z) (w w1 : World) (a1 : list Action) :
  api_pair_begin env number w = (w1, a1, Some n) →
  api_pair_connect env n (InitThrows message) now w1
  = (w1, [Respond {| status := 500; body := PairFailure message |}])
  ∧ disk w1 !! session_path env n = Some (Directory [])
  ∧ activeConnections w1 = activeConnections w
  ∧ sessions w1 = sessions w
  ∧ nextConn w1 = nextConn w.
Proof.
  intros Hb. unfold api_pair_begin in Hb.
  destruct (falsy_number number); [discriminate|].
  destruct number as [|s|]; try discriminate.
  destruct (String.length (replace_non_digits s) <? 10)%nat; [discriminate|].
  injection Hb as <- <- <-.
  split_and!; try done.
  cbn. rewrite mkdir_after_remove. apply lookup_insert_eq.
Qed.

Lemma failed_initialisation_leaves_directory_witness :
  ∃ w1,
    api_pair_begin env0 (NumString alice) initial_world = (w1, [], Some alice)
    ∧ disk w1 !! session_path env0 alice = Some (Directory []).
Proof.
  eexists. split; [vm_compute; reflexivity|].
  refine (proj1 (proj2 (failed_initialisation_leaves_directory env0 (NumString alice)
                          alice "ENOTFOUND web.whatsapp.com" 1000 initial_world _ [] _))).
  vm_compute; reflexivity.
Defined.

(** ** The outcome of the pairing-code request *)

Lemma tail_shape env h u w :
  (∃ s, sessions w !! h = Some s
        ∧ fst (connection_update_tail env h u w)
          = {| activeConnections := delete (normalizedNumber s) (activeConnections w);
               disk := delete (session_path env (normalizedNumber s)) (disk w);
               sessions := sessions w; nextConn := nextConn w |}
        ∧ snd (connection_update_tail env h u w) = []
        ∧ is_terminal_close env u = true)
  ∨ (∃ s, sessions w !! h = Some s
          ∧ connection_update_tail env h u w
            = (set_session h (with_delivery s) w, [SetDeliveryTimeout h])
          ∧ is_terminal_close env u = false)
  ∨ (connection_update_tail env h u w = (w, [])
     ∧ (is_Some (sessions w !! h) → is_terminal_close env u = false)).
Proof.
  unfold connection_update_tail, is_terminal_close.
  destruct (sessions w !! h) as [s|] eqn:Hs.
  2:{ right; right. split; [done|]. by intros [? ?]. }
  destruct (connection u) as [[| |]|].
  - right; right. by split.
  - destruct (credsSent s).
    + right; right. by split.
    + right; left. by exists s.
  - destruct (is_terminal env (statusCode u)) eqn:Ht.
    + left. exists s. rewrite remove_if_exists_delete. by split_and!.
    + right; right. by split.
  - right; right. by split.
Qed.

Lemma resume_fulfilled_error env h s message c0 w :
  sessions w !! h = Some s →
  pairingCodePromise s = Fulfilled {| code := c0; error := Some message |} →
  message ≠ "" →
  api_pair_resume env h w = api_pair_catch env h message w.
Proof.
  intros Hs Hp Hm. unfold api_pair_resume. rewrite Hs, Hp. cbn.
  destruct message; [congruence|reflexivity].
Qed.

Lemma resume_fulfilled_ok env h s result w :
  sessions w !! h = Some s →
  pairingCodePromise s = Fulfilled result →
  truthy_opt (error result) = false →
  api_pair_resume env h w
  = (w, [Respond {| status := 200;
                    body := PairSuccess (code result) (normalizedNumber s) |}]).
Proof.
  intros Hs Hp He. unfold api_pair_resume. rewrite Hs, Hp.
  destruct (error result) as [m|]; [|reflexivity]. cbn in He. by rewrite He.
Qed.

(** X5. When the Transport refuses the pairing code with a message, the
    registration that was waiting for it is rolled back whatever event had
    triggered the request: the registry entry and the session directory of
    the number are gone, the socket's [ws], if it has one, is closed
    exactly once, and the last thing the handler does is to answer 500
    with the Transport's message. *)
Theorem pairing_failure_rolls_back env (h : nat) (s : Session) (u : Update)
    (message : string) (w : World) :
  sessions w !! h = Some s →
  suspended s = Some u →
  pairingCodePromise s = Pending →
  message ≠ "" →
  normalizedNumber s ≠ "" →
  let n := normalizedNumber s in
  let w' := fst (on_pairing_code_settled env h (inr message) w) in
  let acts := snd (on_pairing_code_settled env h (inr message) w) in
  activeConnections w' = delete n (activeConnections w)
  ∧ disk w' = delete (session_path env n) (disk w)
  ∧ last acts = Some (Respond {| status := 500; body := PairFailure message |})
  ∧ tally (is_teardown h) acts = match ws s with Some _ => 1%nat | None => 0%nat end.
Proof.
  intros Hs Hu Hp Hm Hn n w' acts. subst n w' acts.
  unfold on_pairing_code_settled. rewrite Hs, Hu, Hp. cbn [is_pending].
  set (s1 := with_resumed _ s). set (w1 := set_session h s1 w).
  assert (Hs1 : sessions w1 !! h = Some s1) by apply lookup_insert_eq.
  destruct (tail_shape env h u w1) as
    [(s' & Hs' & Hw2 & Ha2 & _)|[(s' & Hs' & Ht & _)|[Ht _]]].
  - rewrite Hs1 in Hs'. injection Hs' as <-.
    destruct (connection_update_tail env h u w1) as [w2 a2].
    cbn [fst snd] in Hw2, Ha2. subst w2 a2.
    erewrite resume_fulfilled_error; [|exact Hs1|by subst s1; cbn; rewrite Hp|exact Hm].
    erewrite catch_clears; [|exact Hs1|exact Hn].
    cbn. rewrite !delete_delete_eq, last_snoc.
    split_and!; try done.
    destruct (ws s); cbn; by rewrite ?bool_decide_eq_true_2.
  - rewrite Hs1 in Hs'. injection Hs' as <-. rewrite Ht.
    erewrite resume_fulfilled_error;
      [|apply lookup_insert_eq|by subst s1; cbn; rewrite Hp|exact Hm].
    erewrite catch_clears; [|apply lookup_insert_eq|exact Hn].
    cbn. rewrite last_cons, last_snoc.
    split_and!; try done.
    destruct (ws s); cbn; by rewrite ?bool_decide_eq_true_2.
  - rewrite Ht.
    erewrite resume_fulfilled_error; [|exact Hs1|by subst s1; cbn; rewrite Hp|exact Hm].
    erewrite catch_clears; [|exact Hs1|exact Hn].
    cbn. rewrite last_snoc.
    split_and!; try done.
    destruct (ws s); cbn; by rewrite ?bool_decide_eq_true_2.
Qed.

Lemma pairing_failure_rolls_back_witness :
  ∃ s, sessions requesting_world !! 0%nat = Some s
       ∧ suspended s = Some (ev (Some ConnConnecting) None None)
       ∧ pairingCodePromise s = Pending
       ∧ "rate-overlimit" ≠ ""
       ∧ normalizedNumber s ≠ ""
       ∧ activeConnections
           (fst (on_pairing_code_settled env0 0 (inr "rate-overlimit") requesting_world))
         = delete (normalizedNumber s) (activeConnections requesting_world).
Proof.
  eexists. split; [vm_compute; reflexivity|].
  split; [reflexivity|]. split; [reflexivity|].
  split; [discriminate|]. split; [discriminate|].
  refine (proj1 (pairing_failure_rolls_back env0 0%nat _ _ "rate-overlimit"
                   requesting_world _ _ _ _ _));
    try (vm_compute; reflexivity); discriminate.
Defined.

(** X6. When the Transport returns the pairing code, the caller gets it
    back in a 200 response together with the normalized number, and no
    socket is logged out or closed; unless the event that had triggered the
    request was itself a terminal close, the registry and the disk are as
    they were. *)
Theorem pairing_code_is_returned env (h : nat) (s : Session) (u : Update)
    (pairingCode : string) (w : World) :
  sessions w !! h = Some s →
  suspended s = Some u →
  pairingCodePromise s = Pending →
  let w' := fst (on_pairing_code_settled env h (inl pairingCode) w) in
  let acts := snd (on_pairing_code_settled env h (inl pairingCode) w) in
  last acts
  = Some (Respond {| status := 200;
                     body := PairSuccess (Some pairingCode) (normalizedNumber s) |})
  ∧ (∀ h', tally (is_teardown h') acts = 0%nat)
  ∧ (is_terminal_close env u = false →
     activeConnections w' = activeConnections w ∧ disk w' = disk w).
Proof.
  intros Hs Hu Hp w' acts. subst w' acts.
  unfold on_pairing_code_settled. rewrite Hs, Hu, Hp. cbn [is_pending].
  set (s1 := with_resumed _ s). set (w1 := set_session h s1 w).
  assert (Hs1 : sessions w1 !! h = Some s1) by apply lookup_insert_eq.
  assert (Hp1 : pairingCodePromise s1
                = Fulfilled {| code := Some pairingCode; error := None |})
    by (subst s1; cbn; by rewrite Hp).
  destruct (tail_shape env h u w1) as
    [(s' & Hs' & Hw2 & Ha2 & Hterm)|[(s' & Hs' & Ht & _)|[Ht _]]].
  - rewrite Hs1 in Hs'. injection Hs' as <-.
    destruct (connection_update_tail env h u w1) as [w2 a2].
    cbn [fst snd] in Hw2, Ha2. subst w2 a2.
    erewrite resume_fulfilled_ok; [|exact Hs1|exact Hp1|done].
    cbn. split_and!; try done. intros E. congruence.
  - rewrite Hs1 in Hs'. injection Hs' as <-. rewrite Ht.
    erewrite resume_fulfilled_ok; [|apply lookup_insert_eq|exact Hp1|done].
    cbn. by split_and!.
  - rewrite Ht.
    erewrite resume_fulfilled_ok; [|exact Hs1|exact Hp1|done].
    cbn. by split_and!.
Qed.

Lemma pairing_code_is_returned_witness :
  ∃ s, sessions requesting_world !! 0%nat = Some s
       ∧ suspended s = Some (ev (Some ConnConnecting) None None)
       ∧ pairingCodePromise s = Pending
       ∧ last (snd (on_pairing_code_settled env0 0 (inl "ABC-123") requesting_world))
         = Some (Respond {| status := 200;
                            body := PairSuccess (Some "ABC-123") (normalizedNumber s) |}).
Proof.
  eexists. split; [vm_compute; reflexivity|].
  split; [reflexivity|]. split; [reflexivity|].
  refine (proj1 (pairing_code_is_returned env0 0%nat _ _ "ABC-123"
                   requesting_world _ _ _));
    vm_compute; reflexivity.
Defined.

(** X7. An error thrown by [requestPairingCode] whose message is the
    empty string is not treated as a failure: [result.error] is falsy, so
    the caller gets a 200 response without a pairing code, nothing is
    closed, and the session stays registered. *)
Theorem empty_error_message_is_success env (h : nat) (s : Session) (u : Update)
    (w : World) :
  sessions w !! h = Some s →
  suspended s = Some u →
  pairingCodePromise s = Pending →
  let w' := fst (on_pairing_code_settled env h (inr "") w) in
  let acts := snd (on_pairing_code_settled env h (inr "") w) in
  last acts
  = Some (Respond {| status := 200; body := PairSuccess None (normalizedNumber s) |})
  ∧ (∀ h', tally (is_teardown h') acts = 0%nat)
  ∧ (is_terminal_close env u = false →
     activeConnections w' = activeConnections w ∧ disk w' = disk w).
Proof.
  intros Hs Hu Hp w' acts. subst w' acts.
  unfold on_pairing_code_settled. rewrite Hs, Hu, Hp. cbn [is_pending].
  set (s1 := with_resumed _ s). set (w1 := set_session h s1 w).
  assert (Hs1 : sessions w1 !! h = Some s1) by apply lookup_insert_eq.
  assert (Hp1 : pairingCodePromise s1
                = Fulfilled {| code := None; error := Some "" |})
    by (subst s1; cbn; by rewrite Hp).
  destruct (tail_shape env h u w1) as
    [(s' & Hs' & Hw2 & Ha2 & Hterm)|[(s' & Hs' & Ht & _)|[Ht _]]].
  - rewrite Hs1 in Hs'. injection Hs' as <-.
    destruct (connection_update_tail env h u w1) as [w2 a2].
    cbn [fst snd] in Hw2, Ha2. subst w2 a2.
    erewrite resume_fulfilled_ok; [|exact Hs1|exact Hp1|done].
    cbn. split_and!; try done. intros E. congruence.
  - rewrite Hs1 in Hs'. injection Hs' as <-. rewrite Ht.
    erewrite resume_fulfilled_ok; [|apply lookup_insert_eq|exact Hp1|done].
    cbn. by split_and!.
  - rewrite Ht.
    erewrite resume_fulfilled_ok; [|exact Hs1|exact Hp1|done].
    cbn. by split_and!.
Qed.

Lemma empty_error_message_is_success_witness :
  ∃ s, sessions requesting_world !! 0%nat = Some s
       ∧ suspended s = Some (ev (Some ConnConnecting) None None)
       ∧ pairingCodePromise s = Pending
       ∧ activeConnections (fst (on_pairing_code_settled env0 0 (inr "") requesting_world))
         = activeConnections requesting_world.
Proof.
  eexists. split; [vm_compute; reflexivity|].
  split; [reflexivity|]. split; [reflexivity|].
  refine (proj1 (proj2 (proj2 (empty_error_message_is_success env0 0%nat _ _
                   requesting_world _ _ _)) _));
    vm_compute; reflexivity.
Defined.

(** ** A promise that has settled *)

(** X8. The 30 s timer is never cleared and a pairing code can still
    arrive after the deadline, but a promise that has settled stays as it
    is.  When the timer fires after the promise has settled, nothing is
    sent and the registry and the disk are untouched; when
    [requestPairingCode] returns or throws after the promise has settled,
    no response is sent and no socket is closed.  In both cases the promise
    keeps the value it had. *)
Theorem settled_promise_ignores_late_events env (h : nat) (s : Session) (w : World) :
  sessions w !! h = Some s →
  pairingCodePromise s ≠ Pending →
  (snd (on_pair_deadline env h w) = []
   ∧ activeConnections (fst (on_pair_deadline env h w)) = activeConnections w
   ∧ disk (fst (on_pair_deadline env h w)) = disk w
   ∧ pairingCodePromise <$> sessions (fst (on_pair_deadline env h w)) !! h
     = Some (pairingCodePromise s))
  ∧ (∀ r,
       tally is_response (snd (on_pairing_code_settled env h r w)) = 0%nat
       ∧ (∀ h', tally (is_teardown h') (snd (on_pairing_code_settled env h r w)) = 0%nat)
       ∧ pairingCodePromise <$> sessions (fst (on_pairing_code_settled env h r w)) !! h
         = Some (pairingCodePromise s)).
Proof.
  intros Hs Hp.
  assert (Hnp : is_pending (pairingCodePromise s) = false)
    by (destruct (pairingCodePromise s); [congruence|done|done]).
  assert (Hsettle : ∀ p, settle p (pairingCodePromise s) = pairingCodePromise s)
    by (intros p; destruct (pairingCodePromise s); [congruence|done|done]).
  split.
  - unfold on_pair_deadline. rewrite Hs, Hnp.
    destruct (timeoutTimer s); cbn.
    + rewrite lookup_insert_eq. cbn. by rewrite Hsettle.
    + by rewrite Hs.
  - intros r. unfold on_pairing_code_settled. rewrite Hs, Hnp.
    destruct (suspended s) as [u|]; [|cbn; by rewrite Hs].
    set (s1 := with_resumed _ s). set (w1 := set_session h s1 w).
    assert (Hs1 : sessions w1 !! h = Some s1) by apply lookup_insert_eq.
    pose proof (tail_keeps_promise env h u w1 h) as Hk.
    rewrite Hs1 in Hk. cbn in Hk.
    destruct (tail_shape env h u w1) as
      [(s' & Hs' & Hw2 & Ha2 & _)|[(s' & Hs' & Ht & _)|[Ht _]]].
    + destruct (connection_update_tail env h u w1) as [w2 a2].
      cbn [fst snd] in *. subst a2. split_and!; try done.
      destruct (sessions w2 !! h) as [s2|]; [|discriminate].
      cbn in Hk |- *. injection Hk as _ ->. by rewrite Hsettle.
    + rewrite Ht in Hk |- *. cbn [fst snd] in *. split_and!; try done.
      destruct (sessions (set_session h (with_delivery s') w1) !! h) as [s2|];
        [|discriminate].
      cbn in Hk |- *. injection Hk as _ ->. by rewrite Hsettle.
    + rewrite Ht. cbn [fst snd]. split_and!; try done.
      rewrite Hs1. cbn. by rewrite Hsettle.
Qed.

Lemma settled_promise_ignores_late_events_witness :
  ∃ s, sessions paired_world !! 0%nat = Some s
       ∧ pairingCodePromise s ≠ Pending
       ∧ snd (on_pair_deadline env0 0 paired_world) = []
       ∧ activeConnections (fst (on_pair_deadline env0 0 paired_world))
         = activeConnections paired_world.
Proof.
  eexists. split; [vm_compute; reflexivity|]. split; [discriminate|].
  refine ((λ H, conj (proj1 H) (proj1 (proj2 H)))
            (proj1 (settled_promise_ignores_late_events env0 0%nat _ paired_world _ _)));
    try (vm_compute; reflexivity); discriminate.
Defined.

(** ** The temporary zip file *)

(** X9. [sendCredsToUser] reports success exactly when both the archive
    and the message went through.  It attempts to send only after the
    archive is complete, and then to the number's own JID.  On success the
    zip file is removed again; when the send fails the zip file is left
    behind next to the session directory.  No other path of the disk is
    touched, the session directory included. *)
Theorem sendCredsToUser_outcomes (sock : nat) (phoneNumber sessionDir : string)
    (zip : ZipOutcome) (send_ok : bool) (d : gmap string FsNode) :
  let result := fst (fst (sendCredsToUser sock phoneNumber sessionDir zip send_ok d)) in
  let d' := snd (fst (sendCredsToUser sock phoneNumber sessionDir zip send_ok d)) in
  let acts := snd (sendCredsToUser sock phoneNumber sessionDir zip send_ok d) in
  (result = true ↔ zip = ZipResolved ∧ send_ok = true)
  ∧ acts = match zip with
           | ZipResolved => [CallSendMessage sock (phoneNumber ++ "@s.whatsapp.net")]
           | ZipRejected _ _ => []
           end
  ∧ (result = true → d' !! (sessionDir ++ ".zip") = None)
  ∧ (zip = ZipResolved → send_ok = false →
     d' !! (sessionDir ++ ".zip") = Some RegularFile)
  ∧ (∀ p, p ≠ sessionDir ++ ".zip" → d' !! p = d !! p)
  ∧ d' !! sessionDir = d !! sessionDir.
Proof.
  assert (Hne : sessionDir ≠ sessionDir ++ ".zip")
    by (intros E; by apply (zip_path_differs sessionDir)).
  unfold sendCredsToUser, zipSessionFolder, unlinkSync.
  destruct zip as [|m [|]]; [destruct send_ok| |]; cbn;
    rewrite ?lookup_delete_eq, ?lookup_insert_eq;
    (split_and!;
     [split; [intros ?; try discriminate; by split|intros [? ?]; try discriminate; done]
     |done|done
     |intros ? ?; try discriminate; done
     |intros p Hp; by rewrite ?lookup_delete_ne, ?lookup_insert_ne by congruence
     |by rewrite ?lookup_delete_ne, ?lookup_insert_ne by congruence]).
Qed.

(** X10. A download request for an unknown number is answered 404 and
    changes nothing.  For a registered number the request never touches
    the registry or the sockets, and on the disk only the zip file next to
    the session directory can differ: it is gone again after a download
    that went through, and it is left behind when the transfer failed. *)
Theorem download_creds_effects (number : string) (zip : ZipOutcome)
    (download_ok : bool) (w : World) :
  let n := replace_non_digits number in
  let w' := fst (api_download_creds number zip download_ok w) in
  activeConnections w' = activeConnections w
  ∧ sessions w' = sessions w
  ∧ nextConn w' = nextConn w
  ∧ (activeConnections w !! n = None →
     api_download_creds number zip download_ok w
     = (w, [Respond {| status := 404; body := ErrorBody "Session not found" |}]))
  ∧ (∀ c, activeConnections w !! n = Some c →
       (∀ p, p ≠ sessionDir c ++ ".zip" → disk w' !! p = disk w !! p)
       ∧ disk w' !! sessionDir c = disk w !! sessionDir c
       ∧ (zip = ZipResolved → download_ok = true →
          disk w' !! (sessionDir c ++ ".zip") = None)
       ∧ (zip = ZipResolved → download_ok = false →
          disk w' !! (sessionDir c ++ ".zip") = Some RegularFile)).
Proof.
  intros n w'. subst n w'. unfold api_download_creds.
  destruct (activeConnections w !! replace_non_digits number) as [c|] eqn:Hc.
  2:{ by split_and!. }
  assert (Hne : sessionDir c ≠ sessionDir c ++ ".zip")
    by (intros E; by apply (zip_path_differs (sessionDir c))).
  unfold zipSessionFolder, unlinkSync.
  destruct zip as [|m [|]]; [destruct download_ok| |]; cbn;
    (split_and!; try done; intros c' Hc'; injection Hc' as <-;
     rewrite ?lookup_delete_eq, ?lookup_insert_eq;
     (split_and!;
      [intros p Hp; by rewrite ?lookup_delete_ne, ?lookup_insert_ne by congruence
      |by rewrite ?lookup_delete_ne, ?lookup_insert_ne by congruence
      |intros ? ?; try discriminate; done
      |intros ? ?; try discriminate; done])).
Qed.

(** ** After the session has gone *)

Lemma disconnect_whole_done (number : string) (c : Connection) (w : World) :
  activeConnections w !! replace_non_digits number = Some c →
  fst (api_disconnect_whole number None w)
  = {| activeConnections := delete (replace_non_digits number) (activeConnections w);
       disk := delete (sessionDir c) (disk w);
       sessions := sessions w; nextConn := nextConn w |}.
Proof.
  intros Hc. unfold api_disconnect_whole, api_disconnect. rewrite Hc.
  unfold api_disconnect_resume. cbn. by rewrite remove_if_exists_delete.
Qed.

(** X11. Disconnect is idempotent in its effect: after a disconnect whose
    [logout] went through, a second disconnect of the same number finds no
    session, calls nothing and changes nothing, and the status endpoint
    reports that there is no connection. *)
Theorem disconnect_twice (number : string) (c : Connection) (w : World) :
  activeConnections w !! replace_non_digits number = Some c →
  let w1 := fst (api_disconnect_whole number None w) in
  (∀ logout,
     api_disconnect_whole number logout w1
     = (w1, [Respond {| status := 200;
                        body := MessageBody "No active connection found" |}]))
  ∧ (∀ now, api_status number now w1 = {| status := 200; body := StatusNone |})
  ∧ disk w1 !! sessionDir c = None.
Proof.
  intros Hc w1. subst w1. rewrite (disconnect_whole_done number c w Hc).
  set (w1 := Build_World _ _ _ _).
  assert (H1 : activeConnections w1 !! replace_non_digits number = None)
    by apply lookup_delete_eq.
  split_and!.
  - intros logout. unfold api_disconnect_whole, api_disconnect. by rewrite H1.
  - intros now. unfold api_status. by rewrite H1.
  - apply lookup_delete_eq.
Qed.

Lemma disconnect_twice_witness :
  ∃ c, activeConnections open_world !! replace_non_digits "+234 810 986 0102" = Some c
       ∧ ∀ now, api_status "+234 810 986 0102" now
                  (fst (api_disconnect_whole "+234 810 986 0102" None open_world))
                = {| status := 200; body := StatusNone |}.
Proof.
  eexists. split; [vm_compute; reflexivity|].
  refine (proj1 (proj2 (disconnect_twice "+234 810 986 0102" _ open_world _))).
  vm_compute; reflexivity.
Defined.

(** X12. Once a socket has handled a close with a terminal status, the
    status endpoint reports no connection for its number, a disconnect
    request for it finds no session, and its session directory is gone. *)
Theorem terminal_close_then_not_found env (h : nat) (s : Session) (u : Update)
    (w : World) (number : string) :
  sessions w !! h = Some s →
  is_terminal_close env u = true →
  wants_pairing_code s u = false →
  replace_non_digits number = normalizedNumber s →
  let w' := fst (on_connection_update env h u w) in
  (∀ now, api_status number now w' = {| status := 200; body := StatusNone |})
  ∧ api_disconnect number w'
    = (w', [Respond {| status := 200;
                       body := MessageBody "No active connection found" |}], None)
  ∧ disk w' !! session_path env (normalizedNumber s) = None.
Proof.
  intros Hs Ht Hw Hn w'. subst w'.
  unfold on_connection_update. rewrite Hs, Hw.
  unfold is_terminal_close in Ht.
  destruct (connection u) as [[| |]|] eqn:Hc; try discriminate.
  rewrite (tail_close_terminal env h s u w Hs Hc Ht). cbn [fst].
  unfold api_status, api_disconnect. rewrite Hn. cbn.
  by rewrite !lookup_delete_eq.
Qed.

Lemma terminal_close_then_not_found_witness :
  ∃ s, sessions open_world !! 0%nat = Some s
       ∧ is_terminal_close env0 (ev (Some ConnClose) None (Some 403)) = true
       ∧ wants_pairing_code s (ev (Some ConnClose) None (Some 403)) = false
       ∧ replace_non_digits "+234 810 986 0102" = normalizedNumber s
       ∧ ∀ now,
           api_status "+234 810 986 0102" now
             (fst (on_connection_update env0 0 (ev (Some ConnClose) None (Some 403))
                     open_world))
           = {| status := 200; body := StatusNone |}.
Proof.
  eexists. split; [vm_compute; reflexivity|].
  split; [reflexivity|]. split; [reflexivity|]. split; [reflexivity|].
  refine (proj1 (terminal_close_then_not_found env0 0%nat _
                   (ev (Some ConnClose) None (Some 403)) open_world
                   "+234 810 986 0102" _ _ _ _));
    vm_compute; reflexivity.
Defined.

(** ** Who can change a registry entry *)

(** X13. The registry entry of an identity is changed only by a socket
    being made for that identity and by what ends its session -- a
    terminal close handled for one of its sockets, a failed registration of
    it, a disconnect of it that went through.  Every other stimulus, and
    in particular everything that happens to other identities, leaves the
    entry exactly as it is. *)
Theorem registry_entry_frame env (k : string) (st : Stimulus) (w : World) :
  ends_session env k st w = false →
  (∀ init now, st ≠ PairInitDone k init now) →
  activeConnections (fst (step env st w)) !! k = activeConnections w !! k.
Proof.
  intros He Hst. destruct st; cbn [step ends_session] in *.
  - unfold api_pair_begin. repeat case_match; simplify_eq; reflexivity.
  - unfold api_pair_connect. destruct init as [m|ws0 r0]; [reflexivity|].
    cbn. apply lookup_insert_ne. intros ->. by destruct (Hst (InitOk ws0 r0) now).
  - unfold on_connection_update.
    destruct (sessions w !! h) as [s|] eqn:Hs; [|reflexivity].
    destruct (wants_pairing_code s u); [reflexivity|].
    apply tail_keeps_entry.
    intros s' Hs' E. simplify_eq.
    rewrite bool_decide_eq_true_2 in He by done. exact He.
  - unfold on_pairing_code_settled.
    destruct (sessions w !! h) as [s|] eqn:Hs; [|reflexivity].
    destruct (suspended s) as [u|] eqn:Hu; [|reflexivity].
    set (result := match r with
                   | inl c => {| code := Some c; error := None |}
                   | inr message => {| code := None; error := Some message |}
                   end).
    set (w1 := set_session h _ w).
    assert (Hs1 : sessions w1 !! h = Some (with_resumed (Fulfilled result) s))
      by (subst w1; cbn; apply lookup_insert_eq).
    pose proof (tail_keeps_entry env h u w1 k) as Ht.
    pose proof (tail_keeps_promise env h u w1 h) as Hp.
    destruct (connection_update_tail env h u w1) as [w2 a2]. cbn [fst] in Ht, Hp.
    rewrite Hs1 in Hp. cbn in Hp.
    assert (Hw2 : activeConnections w2 !! k = activeConnections w !! k).
    { rewrite Ht; [reflexivity|]. intros s' Hs' E. rewrite Hs1 in Hs'.
      injection Hs' as <-. cbn in E. subst k.
      rewrite bool_decide_eq_true_2 in He by done.
      cbn in He. by apply orb_false_iff in He as [He _]. }
    destruct (is_pending (pairingCodePromise s)) eqn:Hpend; [|exact Hw2].
    pose proof (resume_keeps_entry env h w2 k) as Hr.
    destruct (api_pair_resume env h w2) as [w3 a3]. cbn [fst] in *.
    rewrite Hr; [exact Hw2|].
    intros s' Hs' E. rewrite Hs' in Hp. cbn in Hp. injection Hp as Hnum Hprom.
    rewrite Hprom. destruct (pairingCodePromise s); try discriminate. cbn.
    rewrite Hnum in E. subst k.
    rewrite bool_decide_eq_true_2 in He by done.
    cbn in He. apply orb_false_iff in He as [_ He].
    subst result. by destruct r.
  - unfold on_pair_deadline.
    destruct (sessions w !! h) as [s|] eqn:Hs; [|reflexivity].
    destruct (timeoutTimer s) eqn:Ht; [|reflexivity].
    destruct (is_pending (pairingCodePromise s)) eqn:Hp; [|reflexivity].
    rewrite resume_keeps_entry; [reflexivity|].
    intros s' Hs' E. cbn in Hs'. rewrite lookup_insert_eq in Hs'. simplify_eq.
    cbn in He. rewrite bool_decide_eq_true_2 in He by done.
    discriminate.
  - unfold on_delivery_timeout.
    destruct (sessions w !! h) as [s|]; [|reflexivity].
    destruct (deliveryTimer s); [|reflexivity].
    by destruct (sendCredsToUser _ _ _ _ _ _) as [[ok d] a].
  - unfold on_creds_update. repeat case_match; reflexivity.
  - unfold on_transport_change. repeat case_match; reflexivity.
  - reflexivity.
  - unfold api_download_creds. repeat case_match; reflexivity.
  - unfold api_disconnect. repeat case_match; simplify_eq; reflexivity.
  - unfold api_disconnect_resume. destruct logout as [m|]; [reflexivity|].
    cbn. apply lookup_delete_ne.
    intros E. by rewrite bool_decide_eq_true_2 in He.
Qed.

Lemma registry_entry_frame_witness :
  ends_session env0 alice (LogoutSettled "15550109999"
                             {| conn := 7; sessionDir := "/app/sessions/15550109999";
                                timestamp := 0 |} None) open_world = false
  ∧ activeConnections
      (fst (step env0 (LogoutSettled "15550109999"
                         {| conn := 7; sessionDir := "/app/sessions/15550109999";
                            timestamp := 0 |} None) open_world)) !! alice
    = activeConnections open_world !! alice.
Proof.
  split; [reflexivity|].
  apply (registry_entry_frame env0 alice); [reflexivity|discriminate].
Defined.

(** ** What holds in every reachable world *)

Lemma keeps_number_refl o : keeps_number o o.
Proof. intros s ->. eauto. Qed.

Lemma keeps_number_trans o1 o2 o3 :
  keeps_number o1 o2 → keeps_number o2 o3 → keeps_number o1 o3.
Proof.
  intros H1 H2 s Hs. destruct (H1 s Hs) as (s2 & Hs2 & E2).
  destruct (H2 s2 Hs2) as (s3 & Hs3 & E3). exists s3. split; [done|congruence].
Qed.

Lemma keeps_number_set_session h0 s0 s0' w h :
  sessions w !! h0 = Some s0 →
  normalizedNumber s0' = normalizedNumber s0 →
  keeps_number (sessions w !! h) (sessions (set_session h0 s0' w) !! h).
Proof.
  intros H0 E s Hs. cbn. settle_handle h h0.
  - exists s0'. split; [done|]. congruence.
  - eauto.
Qed.

Lemma tail_keeps_number env h0 u w h :
  keeps_number (sessions w !! h)
    (sessions (fst (connection_update_tail env h0 u w)) !! h).
Proof.
  destruct (tail_shape env h0 u w) as
    [(s' & Hs' & -> & _)|[(s' & Hs' & -> & _)|[-> _]]].
  - apply keeps_number_refl.
  - by eapply keeps_number_set_session.
  - apply keeps_number_refl.
Qed.

Lemma catch_keeps_sessions env h m w :
  sessions (fst (api_pair_catch env h m w)) = sessions w.
Proof. unfold api_pair_catch. repeat case_match; reflexivity. Qed.

Lemma resume_keeps_sessions env h w :
  sessions (fst (api_pair_resume env h w)) = sessions w.
Proof.
  unfold api_pair_resume.
  repeat case_match; try reflexivity; apply catch_keeps_sessions.
Qed.

Lemma step_keeps_number env st w h :
  handles_fresh w →
  keeps_number (sessions w !! h) (sessions (fst (step env st w)) !! h).
Proof.
  intros Hf. destruct st; cbn [step].
  - unfold api_pair_begin. repeat case_match; simplify_eq; apply keeps_number_refl.
  - unfold api_pair_connect. destruct init as [m|ws0 r0]; [apply keeps_number_refl|].
    intros s Hs. cbn. rewrite lookup_insert_ne; [eauto|].
    intros <-. by rewrite (Hf _ (Nat.le_refl _)) in Hs.
  - unfold on_connection_update.
    destruct (sessions w !! h0) as [s|] eqn:Hs; [|apply keeps_number_refl].
    destruct (wants_pairing_code s u); [|apply tail_keeps_number].
    by eapply keeps_number_set_session.
  - unfold on_pairing_code_settled.
    destruct (sessions w !! h0) as [s|] eqn:Hs; [|apply keeps_number_refl].
    destruct (suspended s) as [u|]; [|apply keeps_number_refl].
    set (w1 := set_session h0 _ w).
    assert (H1 : keeps_number (sessions w !! h) (sessions w1 !! h))
      by (by eapply keeps_number_set_session).
    pose proof (tail_keeps_number env h0 u w1 h) as H2.
    destruct (connection_update_tail env h0 u w1) as [w2 a2]. cbn [fst] in H2.
    destruct (is_pending (pairingCodePromise s)).
    + pose proof (resume_keeps_sessions env h0 w2) as H3.
      destruct (api_pair_resume env h0 w2) as [w3 a3]. cbn [fst] in *.
      rewrite H3. eauto using keeps_number_trans.
    + eauto using keeps_number_trans.
  - unfold on_pair_deadline.
    destruct (sessions w !! h0) as [s|] eqn:Hs; [|apply keeps_number_refl].
    destruct (timeoutTimer s); [|apply keeps_number_refl].
    destruct (is_pending (pairingCodePromise s)).
    + rewrite resume_keeps_sessions. by eapply keeps_number_set_session.
    + by eapply keeps_number_set_session.
  - unfold on_delivery_timeout.
    destruct (sessions w !! h0) as [s|] eqn:Hs; [|apply keeps_number_refl].
    destruct (deliveryTimer s); [|apply keeps_number_refl].
    destruct (sendCredsToUser _ _ _ _ _ _) as [[ok d] a]. cbn [fst].
    change (sessions (set_disk d (set_session h0 (with_delivery_fired s) w)))
      with (sessions (set_session h0 (with_delivery_fired s) w)).
    by eapply keeps_number_set_session.
  - unfold on_creds_update. repeat case_match; apply keeps_number_refl.
  - unfold on_transport_change.
    destruct (sessions w !! h0) as [s|] eqn:Hs; [|apply keeps_number_refl].
    by eapply keeps_number_set_session.
  - apply keeps_number_refl.
  - unfold api_download_creds. repeat case_match; apply keeps_number_refl.
  - unfold api_disconnect. repeat case_match; simplify_eq; apply keeps_number_refl.
  - unfold api_disconnect_resume. repeat case_match; apply keeps_number_refl.
Qed.

Lemma registry_shrinks_refl w : registry_shrinks w w.
Proof. by intros n c. Qed.

Lemma registry_shrinks_trans w1 w2 w3 :
  registry_shrinks w1 w2 → registry_shrinks w2 w3 → registry_shrinks w1 w3.
Proof. intros H1 H2 n c H. eauto. Qed.

Lemma tail_registry_shrinks env h u w :
  registry_shrinks w (fst (connection_update_tail env h u w)).
Proof.
  destruct (tail_shape env h u w) as
    [(s' & Hs' & -> & _)|[(s' & Hs' & -> & _)|[-> _]]];
    intros n c; cbn; try done.
  by intros [_ ?]%lookup_delete_Some.
Qed.

Lemma catch_registry_shrinks env h m w :
  registry_shrinks w (fst (api_pair_catch env h m w)).
Proof.
  unfold api_pair_catch.
  repeat case_match; intros n c; cbn; try done;
    by intros [_ ?]%lookup_delete_Some.
Qed.

Lemma resume_registry_shrinks env h w :
  registry_shrinks w (fst (api_pair_resume env h w)).
Proof.
  unfold api_pair_resume.
  repeat case_match; try apply registry_shrinks_refl; apply catch_registry_shrinks.
Qed.

Lemma step_registry_shrinks env st w :
  (∀ n init now, st ≠ PairInitDone n init now) →
  registry_shrinks w (fst (step env st w)).
Proof.
  intros Hst. destruct st; cbn [step].
  - unfold api_pair_begin. repeat case_match; simplify_eq; by intros ? ?.
  - by destruct (Hst n init now).
  - unfold on_connection_update.
    destruct (sessions w !! h) as [s|]; [|apply registry_shrinks_refl].
    destruct (wants_pairing_code s u); [by intros n c|apply tail_registry_shrinks].
  - unfold on_pairing_code_settled.
    destruct (sessions w !! h) as [s|]; [|apply registry_shrinks_refl].
    destruct (suspended s) as [u|]; [|apply registry_shrinks_refl].
    set (w1 := set_session h _ w).
    pose proof (tail_registry_shrinks env h u w1) as H2.
    destruct (connection_update_tail env h u w1) as [w2 a2]. cbn [fst] in H2.
    destruct (is_pending (pairingCodePromise s)); [|exact H2].
    pose proof (resume_registry_shrinks env h w2) as H3.
    destruct (api_pair_resume env h w2) as [w3 a3]. cbn [fst] in *.
    exact (registry_shrinks_trans w1 w2 w3 H2 H3).
  - unfold on_pair_deadline.
    destruct (sessions w !! h) as [s|]; [|apply registry_shrinks_refl].
    destruct (timeoutTimer s); [|apply registry_shrinks_refl].
    destruct (is_pending (pairingCodePromise s)); [|by intros n c].
    apply (resume_registry_shrinks env h (set_session h (with_deadline s) w)).
  - unfold on_delivery_timeout.
    destruct (sessions w !! h) as [s|]; [|apply registry_shrinks_refl].
    destruct (deliveryTimer s); [|apply registry_shrinks_refl].
    destruct (sendCredsToUser _ _ _ _ _ _) as [[ok d] a]. by intros n c.
  - unfold on_creds_update. repeat case_match; by intros ? ?.
  - unfold on_transport_change. repeat case_match; by intros ? ?.
  - apply registry_shrinks_refl.
  - unfold api_download_creds. repeat case_match; by intros ? ?.
  - unfold api_disconnect. repeat case_match; simplify_eq; by intros ? ?.
  - unfold api_disconnect_resume. destruct logout; [apply registry_shrinks_refl|].
    intros n' c'. cbn. by intros [_ ?]%lookup_delete_Some.
Qed.

Lemma step_registry_well_formed env st w :
  handles_fresh w →
  registry_well_formed env w →
  registry_well_formed env (fst (step env st w)).
Proof.
  intros Hf Hwf.
  assert (Hcases : (∃ n init now, st = PairInitDone n init now)
                   ∨ (∀ n init now, st ≠ PairInitDone n init now)).
  { destruct st; try (right; intros; discriminate). left; eauto. }
  destruct Hcases as [(n & init & now & ->)|Hne].
  - cbn [step]. unfold api_pair_connect. destruct init as [m|ws0 r0]; [exact Hwf|].
    intros n' c'. cbn. rewrite lookup_insert. case_decide as E.
    + intros Hc. injection Hc as Hc. subst n' c'. cbn. split; [done|].
      rewrite lookup_insert_eq. eauto.
    + intros Hc. destruct (Hwf n' c' Hc) as (Hdir & s & Hs & Hnum).
      split; [done|]. exists s. split; [|done].
      rewrite lookup_insert_ne; [done|].
      intros E'. rewrite <- E' in Hs. by rewrite (Hf _ (Nat.le_refl _)) in Hs.
  - intros n c Hc.
    apply (step_registry_shrinks env st w Hne) in Hc.
    destruct (Hwf n c Hc) as (Hdir & s & Hs & Hnum).
    split; [done|].
    destruct (step_keeps_number env st w (conn c) Hf s Hs) as (s' & Hs' & E).
    exists s'. split; [done|congruence].
Qed.

(** X14. In every world the server can reach, each registry entry points
    at a socket that exists and was made for the very number the entry is
    filed under, and its [sessionDir] is the session directory of that
    number -- so status reads the readiness of the identity's own socket
    and disconnect logs out and deletes what belongs to the identity. *)
Theorem registry_well_formed_always env (stims : list Stimulus) :
  registry_well_formed env (fst (run env stims initial_world)).
Proof.
  assert (H : ∀ stims w, handles_fresh w → registry_well_formed env w →
                         registry_well_formed env (fst (run env stims w))).
  { clear stims. induction stims as [|st stims IH]; intros w Hf Hwf; [exact Hwf|].
    rewrite run_cons. cbn [fst].
    apply IH; [by apply step_fresh|by apply step_registry_well_formed]. }
  apply H.
  - apply initial_consistent.
  - intros n c Hc. cbn in Hc. by rewrite lookup_empty in Hc.
Qed.

Lemma tail_calls env h0 u w h n :
  Forall (call_uses_number h n) (snd (connection_update_tail env h0 u w)).
Proof.
  destruct (tail_shape env h0 u w) as
    [(s' & Hs' & _ & -> & _)|[(s' & Hs' & -> & _)|[-> _]]];
    cbn; repeat constructor.
Qed.

Lemma catch_calls env h0 m w h n :
  Forall (call_uses_number h n) (snd (api_pair_catch env h0 m w)).
Proof.
  unfold api_pair_catch. repeat case_match; cbn; repeat constructor.
Qed.

Lemma resume_calls env h0 w h n :
  Forall (call_uses_number h n) (snd (api_pair_resume env h0 w)).
Proof.
  unfold api_pair_resume.
  repeat case_match; try apply catch_calls; cbn; repeat constructor.
Qed.

Lemma step_calls env st w h n :
  (∀ s, sessions w !! h = Some s → normalizedNumber s = n) →
  Forall (call_uses_number h n) (snd (step env st w)).
Proof.
  intros Hn. destruct st; cbn [step].
  - unfold api_pair_begin. repeat case_match; simplify_eq; cbn; repeat constructor.
  - unfold api_pair_connect. repeat case_match; cbn; repeat constructor.
  - unfold on_connection_update.
    destruct (sessions w !! h0) as [s|] eqn:Hs; [|constructor].
    destruct (wants_pairing_code s u); [|apply tail_calls].
    cbn. repeat constructor. cbn. intros ->. by apply Hn.
  - unfold on_pairing_code_settled.
    destruct (sessions w !! h0) as [s|]; [|constructor].
    destruct (suspended s) as [u|]; [|constructor].
    set (w1 := set_session h0 _ w).
    pose proof (tail_calls env h0 u w1 h n) as H2.
    destruct (connection_update_tail env h0 u w1) as [w2 a2]. cbn [snd] in H2.
    destruct (is_pending (pairingCodePromise s)); [|exact H2].
    pose proof (resume_calls env h0 w2 h n) as H3.
    destruct (api_pair_resume env h0 w2) as [w3 a3]. cbn [snd] in *.
    by apply Forall_app.
  - unfold on_pair_deadline.
    repeat case_match; try apply resume_calls; constructor.
  - unfold on_delivery_timeout.
    destruct (sessions w !! h0) as [s|] eqn:Hs; [|constructor].
    destruct (deliveryTimer s); [|constructor].
    unfold sendCredsToUser, zipSessionFolder.
    destruct zip as [|m c]; [destruct send_ok|]; cbn; repeat constructor;
      cbn; intros ->; by rewrite (Hn s Hs).
  - unfold on_creds_update. repeat case_match; constructor.
  - unfold on_transport_change. repeat case_match; constructor.
  - cbn. repeat constructor.
  - unfold api_download_creds, zipSessionFolder.
    repeat case_match; simplify_eq; cbn; repeat constructor.
  - unfold api_disconnect. repeat case_match; simplify_eq; cbn; repeat constructor.
  - unfold api_disconnect_resume. repeat case_match; cbn; repeat constructor.
Qed.

Lemma run_calls env stims w h n :
  handles_fresh w →
  (∀ s, sessions (fst (run env stims w)) !! h = Some s → normalizedNumber s = n) →
  Forall (call_uses_number h n) (snd (run env stims w)).
Proof.
  revert w. induction stims as [|st stims IH]; intros w Hf Hn; [constructor|].
  rewrite run_cons in Hn |- *. cbn [fst snd] in Hn |- *.
  assert (Hk : ∀ stims' w', handles_fresh w' →
                 keeps_number (sessions w' !! h) (sessions (fst (run env stims' w')) !! h)).
  { clear. induction stims' as [|st' stims' IH']; intros w' Hf'.
    - apply keeps_number_refl.
    - rewrite run_cons. cbn [fst].
      eapply keeps_number_trans; [by apply step_keeps_number|].
      by apply IH', step_fresh. }
  apply Forall_app. split.
  - apply step_calls. intros s Hs.
    destruct (step_keeps_number env st w h Hf s Hs) as (s1 & Hs1 & E1).
    destruct (Hk stims _ (step_fresh env st w Hf) s1 Hs1) as (s2 & Hs2 & E2).
    rewrite <- (Hn s2 Hs2). congruence.
  - apply IH; [by apply step_fresh|exact Hn].
Qed.

(** X15. Every call the server makes on a socket carries the number that
    socket was made for: in every run, each [requestPairingCode] on a
    socket is made with the socket's own normalized number, and each
    [sendMessage] goes to that number's own JID -- the credential bundle is
    never sent to anybody else. *)
Theorem transport_calls_use_own_number env (stims : list Stimulus) (h : nat)
    (s : Session) :
  sessions (fst (run env stims initial_world)) !! h = Some s →
  Forall (call_uses_number h (normalizedNumber s)) (snd (run env stims initial_world)).
Proof.
  intros Hs. apply run_calls; [apply initial_consistent|].
  intros s' Hs'. congruence.
Qed.

Lemma transport_calls_use_own_number_witness :
  ∃ s, sessions (fst (run env0 (open_run ++ [DeliveryTimeout 0 ZipResolved true])
                        initial_world)) !! 0%nat = Some s
       ∧ Forall (call_uses_number 0 (normalizedNumber s))
           (snd (run env0 (open_run ++ [DeliveryTimeout 0 ZipResolved true])
                   initial_world)).
Proof.
  eexists. split; [vm_compute; reflexivity|].
  apply (transport_calls_use_own_number env0
           (open_run ++ [DeliveryTimeout 0 ZipResolved true]) 0%nat).
  vm_compute; reflexivity.
Defined.

(** ** The timer-driven revision: failure and the stored codes *)

Lemma legacy_run_process_prefix env stims w :
  ∃ more, snd (Legacy.run env stims w)
          = (snd (Legacy.run_process env stims w) ++ more)%list.
Proof.
  revert w. induction stims as [|st stims IH]; intros w.
  - by exists [].
  - rewrite legacy_run_cons. cbn [snd Legacy.run_process].
    destruct (Legacy.step env st w) as [w1 a1]. cbn [fst snd].
    destruct (Legacy.ends_process a1).
    + by eexists.
    + destruct (IH w1) as [more Hmore].
      destruct (Legacy.run_process env stims w1) as [w2 a2]. cbn [snd] in *.
      exists more. by rewrite Hmore, app_assoc.
Qed.

(** X16. In the timer-driven revision a pairing-code request that throws
    is never rolled back: the [catch] block fails on its first test with a
    ReferenceError, before any cleanup, so no socket is closed and the
    registry, the disk and the stored pairing codes stay as they were, and
    the handler's own failure response is never sent.  What the caller
    sees is decided by the host: either the rejection is unhandled, no
    response is sent and the process ends on this very step, whatever
    stimuli would follow; or the router answers 500 with the
    ReferenceError, and the status endpoint goes on answering for the
    number as before. *)
Theorem legacy_pairing_failure_is_not_rolled_back env (h : nat)
    (s : Legacy.Session) (message : string) (host : Legacy.Host) (now : Z)
    (w : Legacy.World) :
  Legacy.sessions w !! h = Some s →
  Legacy.requesting s = true →
  let w' := fst (Legacy.on_pairing_code_settled h (inr (message, host)) now w) in
  let acts := snd (Legacy.on_pairing_code_settled h (inr (message, host)) now w) in
  (∀ h', tally (is_teardown h') acts = 0%nat)
  ∧ Legacy.activeConnections w' = Legacy.activeConnections w
  ∧ Legacy.disk w' = Legacy.disk w
  ∧ Legacy.pairingCodes w' = Legacy.pairingCodes w
  ∧ match host with
    | Legacy.HostExits =>
        acts = [Unhandled "number is not defined"]
        ∧ tally is_response acts = 0%nat
        ∧ ∀ rest,
            Legacy.run_process env
              (Legacy.PairingCodeSettled h (inr (message, Legacy.HostExits)) now :: rest) w
            = (w', acts)
    | Legacy.HostAnswers =>
        acts = [Respond {| status := 500; body := ErrorBody "number is not defined" |}]
        ∧ ∀ number, Legacy.api_status number w' = Legacy.api_status number w
    end.
Proof.
  intros Hs Hr w' acts. subst w' acts.
  destruct host.
  - cbn [Legacy.run_process Legacy.step].
    unfold Legacy.on_pairing_code_settled. rewrite Hs, Hr. cbn.
    by split_and!.
  - unfold Legacy.on_pairing_code_settled. rewrite Hs, Hr. cbn.
    split_and!; try done.
    intros number. unfold Legacy.api_status. cbn.
    destruct (Legacy.activeConnections w !! replace_non_digits number) as [h'|];
      [|reflexivity].
    settle_handle h' h; [|reflexivity]. by rewrite Hs.
Qed.

Lemma legacy_pairing_failure_is_not_rolled_back_witness :
  ∃ s, Legacy.sessions
         (fst (Legacy.run env0
                 [ Legacy.HttpPair (NumString alice);
                   Legacy.PairInitDone alice (InitOk (Some 0) false);
                   Legacy.SettleTimer 0 ] Legacy.initial_world)) !! 0%nat = Some s
       ∧ Legacy.requesting s = true
       ∧ Legacy.activeConnections
           (fst (Legacy.on_pairing_code_settled 0
                   (inr ("Connection Closed", Legacy.HostExits)) 4000
                   (fst (Legacy.run env0
                           [ Legacy.HttpPair (NumString alice);
                             Legacy.PairInitDone alice (InitOk (Some 0) false);
                             Legacy.SettleTimer 0 ] Legacy.initial_world))))
         = Legacy.activeConnections
             (fst (Legacy.run env0
                     [ Legacy.HttpPair (NumString alice);
                       Legacy.PairInitDone alice (InitOk (Some 0) false);
                       Legacy.SettleTimer 0 ] Legacy.initial_world)).
Proof.
  eexists. split; [vm_compute; reflexivity|]. split; [reflexivity|].
  refine (proj1 (proj2 (legacy_pairing_failure_is_not_rolled_back env0 0%nat _
                          "Connection Closed" Legacy.HostExits 4000 _ _ _)));
    vm_compute; reflexivity.
Defined.

Lemma legacy_step_keeps_code env st w n :
  is_Some (Legacy.pairingCodes w !! n) →
  is_Some (Legacy.pairingCodes (fst (Legacy.step env st w)) !! n).
Proof.
  intros Hn. destruct st; cbn [Legacy.step].
  - unfold Legacy.api_pair_begin. repeat case_match; simplify_eq; exact Hn.
  - unfold Legacy.api_pair_connect. repeat case_match; exact Hn.
  - unfold Legacy.on_connection_update. repeat case_match; exact Hn.
  - unfold Legacy.on_settle_timer. repeat case_match; exact Hn.
  - unfold Legacy.on_pairing_code_settled.
    destruct (Legacy.sessions w !! h) as [s|]; [|exact Hn].
    destruct (Legacy.requesting s); [|exact Hn].
    destruct r as [c|[m [|]]]; [|exact Hn|exact Hn].
    cbn. rewrite lookup_insert. case_decide; eauto.
  - unfold Legacy.on_creds_update. repeat case_match; exact Hn.
  - unfold Legacy.on_transport_change. repeat case_match; exact Hn.
  - exact Hn.
  - unfold Legacy.api_disconnect. repeat case_match; simplify_eq; exact Hn.
  - unfold Legacy.api_disconnect_resume. repeat case_match; exact Hn.
Qed.

(** X17. In the timer-driven revision a pairing code that the Transport
    returns is stored under the number together with the time, and nothing
    ever removes it: whatever happens afterwards -- a terminal close, a
    disconnect, another registration -- the [pairingCodes] map still has an
    entry for that number. *)
Theorem legacy_pairing_code_is_kept env (h : nat) (s : Legacy.Session)
    (pairingCode : string) (now : Z) (w : Legacy.World)
    (stims : list Legacy.Stimulus) :
  Legacy.sessions w !! h = Some s →
  Legacy.requesting s = true →
  let w1 := fst (Legacy.on_pairing_code_settled h (inl pairingCode) now w) in
  Legacy.pairingCodes w1 !! Legacy.normalizedNumber s = Some (pairingCode, now)
  ∧ snd (Legacy.on_pairing_code_settled h (inl pairingCode) now w)
    = [Respond {| status := 200; body := PairSuccessBrief pairingCode |}]
  ∧ is_Some (Legacy.pairingCodes (fst (Legacy.run env stims w1))
               !! Legacy.normalizedNumber s).
Proof.
  intros Hs Hr w1. subst w1.
  unfold Legacy.on_pairing_code_settled. rewrite Hs, Hr. cbn [fst snd].
  set (w1 := Legacy.set_pairingCodes _ _).
  assert (H1 : Legacy.pairingCodes w1 !! Legacy.normalizedNumber s
               = Some (pairingCode, now)) by apply lookup_insert_eq.
  split_and!; [exact H1|reflexivity|].
  assert (H : ∀ stims w, is_Some (Legacy.pairingCodes w !! Legacy.normalizedNumber s) →
                is_Some (Legacy.pairingCodes (fst (Legacy.run env stims w))
                           !! Legacy.normalizedNumber s)).
  { clear. induction stims as [|st stims IH]; intros w Hn; [exact Hn|].
    rewrite legacy_run_cons. cbn [fst]. by apply IH, legacy_step_keeps_code. }
  apply H. rewrite H1. eauto.
Qed.

Lemma legacy_pairing_code_is_kept_witness :
  ∃ s, Legacy.sessions
         (fst (Legacy.run env0
                 [ Legacy.HttpPair (NumString alice);
                   Legacy.PairInitDone alice (InitOk (Some 0) false);
                   Legacy.SettleTimer 0 ] Legacy.initial_world)) !! 0%nat = Some s
       ∧ Legacy.requesting s = true
       ∧ is_Some
           (Legacy.pairingCodes
              (fst (Legacy.run env0
                      [ Legacy.ConnectionUpdate 0 (ev (Some ConnClose) None (Some 401));
                        Legacy.HttpDisconnect alice ]
                      (fst (Legacy.on_pairing_code_settled 0 (inl "ABC-123") 4000
                              (fst (Legacy.run env0
                                      [ Legacy.HttpPair (NumString alice);
                                        Legacy.PairInitDone alice (InitOk (Some 0) false);
                                        Legacy.SettleTimer 0 ] Legacy.initial_world))))))
              !! Legacy.normalizedNumber s).
Proof.
  eexists. split; [vm_compute; reflexivity|]. split; [reflexivity|].
  refine (proj2 (proj2 (legacy_pairing_code_is_kept env0 0%nat _ "ABC-123" 4000 _
                          [ Legacy.ConnectionUpdate 0 (ev (Some ConnClose) None (Some 401));
                            Legacy.HttpDisconnect alice ] _ _)));
    vm_compute; reflexivity.
Defined.

(** ** Where teardown calls come from *)

Lemma tally_In_teardown h a acts :
  In a acts → is_teardown h a = true → tally (is_teardown h) acts ≠ 0%nat.
Proof.
  induction acts as [|b acts IH]; [intros []|].
  intros [->|Hin] Ha; cbn.
  - rewrite Ha. lia.
  - specialize (IH Hin Ha). lia.
Qed.

Lemma tail_teardown env h0 u w h :
  tally (is_teardown h) (snd (connection_update_tail env h0 u w)) = 0%nat.
Proof.
  destruct (tail_shape env h0 u w) as
    [(s' & Hs' & _ & -> & _)|[(s' & Hs' & -> & _)|[-> _]]]; reflexivity.
Qed.

(** X18. The server logs a socket out only while serving a disconnect
    request for a number whose registry entry points at that socket.
    Registration, connection events, the delivery and deadline timers,
    status and download requests never call [logout]; connection events
    -- a terminal close included -- never call [ws.close] either. *)
Theorem logout_only_on_disconnect env (st : Stimulus) (w : World) (h : nat) :
  (In (CallLogout h) (snd (step env st w)) →
   ∃ number c, st = HttpDisconnect number
               ∧ activeConnections w !! replace_non_digits number = Some c
               ∧ conn c = h)
  ∧ (∀ h0 u, st = ConnectionUpdate h0 u →
             tally (is_teardown h) (snd (step env st w)) = 0%nat).
Proof.
  split.
  - intros Hin.
    assert (Hcases : (∃ number, st = HttpDisconnect number)
                     ∨ (∀ number, st ≠ HttpDisconnect number)).
    { destruct st; try (right; intros; discriminate). left; eauto. }
    destruct Hcases as [(number & ->)|Hne].
    + cbn [step] in Hin. unfold api_disconnect in Hin.
      destruct (activeConnections w !! replace_non_digits number) as [c|] eqn:Hc.
      * destruct Hin as [E|[]]. injection E as E. eauto.
      * destruct Hin as [E|[]]. discriminate.
    + exfalso. destruct st; cbn [step] in Hin.
      * unfold api_pair_begin in Hin.
        repeat case_match; simplify_eq; not_among Hin.
      * unfold api_pair_connect in Hin.
        repeat case_match; simplify_eq; not_among Hin.
      * unfold on_connection_update in Hin.
        destruct (sessions w !! h0) as [s|]; [|destruct Hin].
        destruct (wants_pairing_code s u).
        -- not_among Hin.
        -- eapply tally_In_teardown in Hin;
             [by rewrite tail_teardown in Hin|by apply bool_decide_eq_true_2].
      * unfold on_pairing_code_settled in Hin.
        destruct (sessions w !! h0) as [s|]; [|destruct Hin].
        destruct (suspended s) as [u|]; [|destruct Hin].
        set (w1 := set_session h0 _ w) in Hin.
        destruct (tail_shape env h0 u w1) as
          [(s' & Hs' & Hw2 & Ha2 & _)|[(s' & Hs' & Ht & _)|[Ht _]]].
        -- destruct (connection_update_tail env h0 u w1) as [w2 a2].
           cbn [fst snd] in Hw2, Ha2. subst a2.
           destruct (is_pending (pairingCodePromise s)); [|destruct Hin].
           unfold api_pair_resume, api_pair_catch in Hin.
           repeat case_match; simplify_eq; not_among Hin.
        -- rewrite Ht in Hin.
           destruct (is_pending (pairingCodePromise s));
             [|not_among Hin].
           unfold api_pair_resume, api_pair_catch in Hin.
           repeat case_match; simplify_eq; not_among Hin.
        -- rewrite Ht in Hin.
           destruct (is_pending (pairingCodePromise s)); [|destruct Hin].
           unfold api_pair_resume, api_pair_catch in Hin.
           repeat case_match; simplify_eq; not_among Hin.
      * unfold on_pair_deadline, api_pair_resume, api_pair_catch in Hin.
        repeat case_match; simplify_eq; not_among Hin.
      * unfold on_delivery_timeout, sendCredsToUser, zipSessionFolder in Hin.
        repeat case_match; simplify_eq; not_among Hin.
      * unfold on_creds_update in Hin.
        repeat case_match; simplify_eq; not_among Hin.
      * unfold on_transport_change in Hin.
        repeat case_match; simplify_eq; not_among Hin.
      * not_among Hin.
      * unfold api_download_creds, zipSessionFolder in Hin.
        repeat case_match; simplify_eq; not_among Hin.
      * by destruct (Hne number).
      * unfold api_disconnect_resume in Hin.
        repeat case_match; simplify_eq; not_among Hin.
  - intros h0 u ->. cbn [step]. unfold on_connection_update.
    destruct (sessions w !! h0) as [s|]; [|reflexivity].
    destruct (wants_pairing_code s u); [reflexivity|apply tail_teardown].
Qed.

(** ** Registering and disconnecting *)

(** X19. Registration followed by a disconnect whose [logout] goes
    through undoes what registration did to the registry and the disk: the
    number has no registry entry and no session directory afterwards, and
    if it had neither before, the registry and the disk are exactly what
    they were.  The disconnect logs out and closes the socket that the
    registration made. *)
Theorem register_then_disconnect env (typed n : string) (ws0 : option Z)
    (r0 : bool) (t0 : Z) (w w1 : World) (a1 : list Action) :
  api_pair_begin env (NumString typed) w = (w1, a1, Some n) →
  let w2 := fst (api_pair_connect env n (InitOk ws0 r0) t0 w1) in
  let w3 := fst (api_disconnect_whole typed None w2) in
  activeConnections w3 = delete n (activeConnections w)
  ∧ disk w3 = delete (session_path env n) (disk w)
  ∧ (activeConnections w !! n = None →
     disk w !! session_path env n = None →
     activeConnections w3 = activeConnections w ∧ disk w3 = disk w)
  ∧ snd (api_disconnect_whole typed None w2)
    = (CallLogout (nextConn w)
       :: match ws0 with Some _ => [CallWsClose (nextConn w)] | None => [] end
       ++ [Respond {| status := 200; body := DisconnectSuccess |}])%list.
Proof.
  intros Hb w2 w3. subst w2 w3.
  unfold api_pair_begin in Hb.
  destruct (falsy_number (NumString typed)); [discriminate|].
  destruct (String.length (replace_non_digits typed) <? 10)%nat; [discriminate|].
  injection Hb as <- <- <-.
  set (n := replace_non_digits typed).
  unfold api_disconnect_whole, api_disconnect, api_pair_connect.
  cbn [fst activeConnections]. fold n. rewrite lookup_insert_eq.
  unfold api_disconnect_resume.
  cbn [fst snd conn sessionDir sessions activeConnections disk nextConn
       set_disk set_activeConnections].
  rewrite lookup_insert_eq, remove_if_exists_delete, mkdir_after_remove.
  rewrite !delete_insert_eq.
  split_and!.
  - reflexivity.
  - reflexivity.
  - intros H1 H2. by rewrite !delete_id.
  - cbn. by destruct ws0.
Qed.

Lemma register_then_disconnect_witness :
  ∃ w1,
    api_pair_begin env0 (NumString "+234 810 986 0102") initial_world
    = (w1, [], Some alice)
    ∧ activeConnections
        (fst (api_disconnect_whole "+234 810 986 0102" None
                (fst (api_pair_connect env0 alice (InitOk (Some 1) false) 1000 w1))))
      = delete alice (activeConnections initial_world).
Proof.
  eexists. split; [vm_compute; reflexivity|].
  refine (proj1 (register_then_disconnect env0 "+234 810 986 0102" alice (Some 1)
                   false 1000 initial_world _ [] _)).
  vm_compute; reflexivity.
Defined.

(** ** Status of a registered identity *)

Lemma run_registry_well_formed env stims w :
  handles_fresh w →
  registry_well_formed env w →
  registry_well_formed env (fst (run env stims w)).
Proof.
  revert w. induction stims as [|st stims IH]; intros w Hf Hwf; [exact Hwf|].
  rewrite run_cons. cbn [fst].
  apply IH; [by apply step_fresh|by apply step_registry_well_formed].
Qed.

Lemma initial_registry_well_formed env : registry_well_formed env initial_world.
Proof. intros n c Hc. cbn in Hc. by rewrite lookup_empty in Hc. Qed.

(** C8, amended. In any state the server has reached, once a registration
    has stored the session of an identity, and for as long as no terminal
    close is handled for that identity, no registration of it fails
    (deadline or refused pairing code) and no disconnect of it goes
    through, the status endpoint finds the session: the registry entry of
    the identity points at a socket that exists and was made for it, the
    connected flag is set exactly when the [readyState] of that socket's
    [ws] is 1, the state is "open" when the flag is set and "closed"
    otherwise, and the time stamp of the entry is reported together with
    the uptime measured from it. *)
Theorem C8_status_while_registered env (pre : list Stimulus) (n : string)
    (ws0 : option Z) (r0 : bool) (t0 : Z) (stims : list Stimulus)
    (number : string) (now : Z) :
  undisturbed env n stims
    (fst (api_pair_connect env n (InitOk ws0 r0) t0 (fst (run env pre initial_world))))
  = true →
  replace_non_digits number = n →
  ∃ c s,
    activeConnections
      (fst (run env stims
              (fst (api_pair_connect env n (InitOk ws0 r0) t0
                      (fst (run env pre initial_world)))))) !! n
    = Some c
    ∧ sessions
        (fst (run env stims
                (fst (api_pair_connect env n (InitOk ws0 r0) t0
                        (fst (run env pre initial_world)))))) !! conn c
      = Some s
    ∧ normalizedNumber s = n
    ∧ api_status number now
        (fst (run env stims
                (fst (api_pair_connect env n (InitOk ws0 r0) t0
                        (fst (run env pre initial_world))))))
      = {| status := 200;
           body :=
             StatusInfo
               match ws s with Some readyState => readyState =? 1 | None => false end
               (if match ws s with Some readyState => readyState =? 1 | None => false end
                then "open" else "closed")
               (timestamp c) (now - timestamp c) |}.
Proof.
  intros Hu Hnum.
  set (w0 := fst (run env pre initial_world)) in *.
  set (w1 := fst (api_pair_connect env n (InitOk ws0 r0) t0 w0)) in *.
  assert (Hf0 : handles_fresh w0) by apply (reachable_consistent env pre).
  assert (Hwf0 : registry_well_formed env w0)
    by (apply run_registry_well_formed;
        [apply initial_consistent|apply initial_registry_well_formed]).
  assert (Hf1 : handles_fresh w1)
    by apply (step_fresh env (PairInitDone n (InitOk ws0 r0) t0) w0 Hf0).
  assert (Hwf1 : registry_well_formed env w1)
    by apply (step_registry_well_formed env (PairInitDone n (InitOk ws0 r0) t0)
                w0 Hf0 Hwf0).
  destruct (run_keeps_entry env n stims w1 Hu) as [c Hc].
  { subst w1. cbn. rewrite lookup_insert_eq. eauto. }
  destruct (run_registry_well_formed env stims w1 Hf1 Hwf1 n c Hc)
    as (_ & s & Hs & Hn).
  exists c, s. split_and!; try done.
  unfold api_status. by rewrite Hnum, Hc, Hs.
Qed.

Lemma C8_status_while_registered_witness :
  undisturbed env0 alice
    [ ConnectionUpdate 0 (ev (Some ConnConnecting) None None);
      PairingCodeSettled 0 (inl "ABC-123");
      ConnectionUpdate 0 (ev (Some ConnClose) None (Some 428));
      TransportChange 0 (Some 1) true;
      ConnectionUpdate 0 (ev (Some ConnOpen) None None);
      DeliveryTimeout 0 ZipResolved false ]
    (fst (api_pair_connect env0 alice (InitOk (Some 0) false) 1000
            (fst (run env0 [HttpPair (NumString alice)] initial_world)))) = true
  ∧ replace_non_digits "+234 810 986 0102" = alice
  ∧ ∃ c s,
      activeConnections
        (fst (run env0
                [ ConnectionUpdate 0 (ev (Some ConnConnecting) None None);
                  PairingCodeSettled 0 (inl "ABC-123");
                  ConnectionUpdate 0 (ev (Some ConnClose) None (Some 428));
                  TransportChange 0 (Some 1) true;
                  ConnectionUpdate 0 (ev (Some ConnOpen) None None);
                  DeliveryTimeout 0 ZipResolved false ]
                (fst (api_pair_connect env0 alice (InitOk (Some 0) false) 1000
                        (fst (run env0 [HttpPair (NumString alice)] initial_world))))))
          !! alice
      = Some c
      ∧ sessions
          (fst (run env0
                  [ ConnectionUpdate 0 (ev (Some ConnConnecting) None None);
                    PairingCodeSettled 0 (inl "ABC-123");
                    ConnectionUpdate 0 (ev (Some ConnClose) None (Some 428));
                    TransportChange 0 (Some 1) true;
                    ConnectionUpdate 0 (ev (Some ConnOpen) None None);
                    DeliveryTimeout 0 ZipResolved false ]
                  (fst (api_pair_connect env0 alice (InitOk (Some 0) false) 1000
                          (fst (run env0 [HttpPair (NumString alice)] initial_world))))))
            !! conn c
        = Some s
      ∧ normalizedNumber s = alice
      ∧ api_status "+234 810 986 0102" 1500
          (fst (run env0
                  [ ConnectionUpdate 0 (ev (Some ConnConnecting) None None);
                    PairingCodeSettled 0 (inl "ABC-123");
                    ConnectionUpdate 0 (ev (Some ConnClose) None (Some 428));
                    TransportChange 0 (Some 1) true;
                    ConnectionUpdate 0 (ev (Some ConnOpen) None None);
                    DeliveryTimeout 0 ZipResolved false ]
                  (fst (api_pair_connect env0 alice (InitOk (Some 0) false) 1000
                          (fst (run env0 [HttpPair (NumString alice)] initial_world))))))
        = {| status := 200;
             body :=
               StatusInfo
                 match ws s with Some readyState => readyState =? 1 | None => false end
                 (if match ws s with Some readyState => readyState =? 1 | None => false end
                  then "open" else "closed")
                 (timestamp c) (1500 - timestamp c) |}.
Proof.
  split; [vm_compute; reflexivity|]. split; [vm_compute; reflexivity|].
  apply (C8_status_while_registered env0 [HttpPair (NumString alice)] alice
           (Some 0) false 1000);
    vm_compute; reflexivity.
Defined.
